(** * Preprint matching: batch driver and evaluation tool

    A shallow embedding of
      - [src/utils/calculate_precision_recall_f-scores.py]
        (the evaluation tool: loaders, [calculate_f_beta], [calculate_metrics]);
      - [src/preprint_matching/preprint_match_data_files.py]
        ([extract_doi_from_url] and the item loop of [process_match_items]).

    Modelling conventions.
      - A Python [str] is a [string] whose characters are the code points
        below 256; [strip], [lower] and comparison follow Python on that range.
      - A Python [dict] is an association list in insertion order with
        pairwise distinct keys; a [set] of strings is a [gset string].
      - Python [float]s and [int]s of the metrics are exact rationals ([Q]):
        rounding, infinities and NaN are outside the model.
      - Calls that leave the repository ([json.loads], [urlparse], the
        matching strategy, [str()] of a non-string, the CSV row write and
        the final [json.dump]) are variables of the section that uses them;
        [None] stands for a raised exception. *)

From Stdlib Require Import Ascii QArith Qabs Lqa DecimalString.
From stdpp Require Import gmap strings list sorting pretty.

Close Scope Q_scope.

(** ** Python string primitives *)

Module PyStr.

(** [str.isspace] on code points below 256. *)
Definition is_space (c : ascii) : bool :=
  let n := N_of_ascii c in
  ((9 <=? n) && (n <=? 13) || (28 <=? n) && (n <=? 32)
   || (n =? 133) || (n =? 160))%N.

(** [str.lower] on one code point below 256: A-Z and the Latin-1 capitals
    (U+00C0-U+00DE without the multiplication sign U+00D7). *)
Definition lower_char (c : ascii) : ascii :=
  let n := N_of_ascii c in
  if ((65 <=? n) && (n <=? 90)
      || (192 <=? n) && (n <=? 222) && negb (n =? 215))%N
  then ascii_of_N (n + 32) else c.

Fixpoint lower (s : string) : string :=
  match s with
  | EmptyString => EmptyString
  | String c s' => String (lower_char c) (lower s')
  end.

Fixpoint lstrip (s : string) : string :=
  match s with
  | EmptyString => EmptyString
  | String c s' => if is_space c then lstrip s' else s
  end.

Definition rstrip (s : string) : string := String.rev (lstrip (String.rev s)).

Definition strip (s : string) : string := rstrip (lstrip s).

(** [s.lstrip('/')]. *)
Fixpoint lstrip_slash (s : string) : string :=
  match s with
  | String "/"%char s' => lstrip_slash s'
  | _ => s
  end.

Definition startswith (p s : string) : bool := String.prefix p s.

Fixpoint drop (n : nat) (s : string) : string :=
  match n, s with
  | S n', String _ s' => drop n' s'
  | _, _ => s
  end.

(** [s.replace(old, "")] for a non-empty [old]: occurrences are removed
    left to right without overlap; [skip] counts the characters of a
    matched occurrence still to be dropped. *)
Fixpoint remove_go (old : string) (skip : nat) (s : string) : string :=
  match s with
  | EmptyString => EmptyString
  | String c s' =>
      match skip with
      | S k => remove_go old k s'
      | O => if String.prefix old s
             then remove_go old (String.length old - 1) s'
             else String c (remove_go old 0 s')
      end
  end.

Definition remove (old s : string) : string := remove_go old 0 s.

(** [sep.join(parts)]. *)
Definition join (sep : string) (parts : list string) : string :=
  String.concat sep parts.

Definition nonempty (s : string) : bool :=
  match s with EmptyString => false | _ => true end.

End PyStr.

(** ** F-beta score *)

(** [calculate_f_beta]; [None] is the [ValueError] raised for [beta <= 0]. *)
Definition calculate_f_beta (precision recall beta : Q) : option Q :=
  if Qeq_bool precision 0 && Qeq_bool recall 0 then Some 0%Q
  else if Qle_bool beta 0 then None
  else
    let beta_sq := (beta ^ 2)%Q in
    let numerator := ((1 + beta_sq) * (precision * recall))%Q in
    let denominator := ((beta_sq * precision) + recall)%Q in
    if Qeq_bool denominator 0 then Some 0%Q
    else Some (numerator / denominator)%Q.

(** ** Python dictionaries as insertion-ordered association lists *)

Module Dict.

(** [d.get(k)]: the value bound to [k], if any. *)
Fixpoint get {V : Type} (k : string) (d : list (string * V)) : option V :=
  match d with
  | [] => None
  | (k', v) :: d' => if decide (k = k') then Some v else get k d'
  end.

(** [d[k] = v]: an existing key keeps its position, a new one goes last. *)
Fixpoint set {V : Type} (k : string) (v : V) (d : list (string * V))
  : list (string * V) :=
  match d with
  | [] => [(k, v)]
  | (k', v') :: d' =>
      if decide (k = k') then (k, v) :: d' else (k', v') :: set k v d'
  end.

Definition keys {V : Type} (d : list (string * V)) : list string := d.*1.

(** The invariant of a Python dict: no key is bound twice. *)
Definition wf {V : Type} (d : list (string * V)) : Prop := NoDup (keys d).

End Dict.

(** [s.strip().lower()], the normal form of an input DOI in the evaluation
    tool. *)
Definition normalize_key (doi : string) : string :=
  PyStr.lower (PyStr.strip doi).

(** [sorted(xs)] on strings: ascending by code points. *)
Definition sorted (xs : list string) : list string := merge_sort String.le xs.

(** ** The evaluation tool: [calculate_metrics] *)

Record detail_record := DetailRecord {
  detail_input_doi : string;
  predicted_doi : string;
  reference_doi : string;
  status : string
}.

Record metrics := Metrics {
  TP : Z;
  FP : Z;
  FN : Z;
  Precision : Q;
  Recall : Q;
  F0_5 : Q;
  F1 : Q;
  F1_5 : Q;
  Positive_References : Z;
  Positive_Predictions : Z
}.

(** The reference map binds an input DOI to its set of correct matches, the
    test map binds it to the predicted DOI or to [None]. *)
Abbreviation reference_map := (list (string * gset string)).
Abbreviation test_map := (list (string * option string)).

(** Truth value of a set, of an optional string and of an optional set. *)
Definition set_truthy (s : gset string) : bool := negb (bool_decide (s = ∅)).

Definition str_truthy (o : option string) : bool :=
  match o with Some s => PyStr.nonempty s | None => false end.

Definition optset_truthy (o : option (gset string)) : bool :=
  match o with Some s => set_truthy s | None => false end.

(** [{k: v for k, v in reference_map.items() if v}] *)
Definition positive_references (reference : reference_map) : reference_map :=
  filter (λ kv, set_truthy kv.2 = true) reference.

(** [sorted(list(set(reference_map.keys()) | set(test_map.keys())))] *)
Definition all_input_dois (reference : reference_map) (test : test_map)
  : list string :=
  sorted (elements (list_to_set (Dict.keys reference)
                    ∪ list_to_set (Dict.keys test) : gset string)).

(** The counters threaded through the loop of [calculate_metrics]. *)
Record counters := Counters {
  tp : Z;
  fp : Z;
  fn : Z;
  positive_predictions : Z;
  detailed_results : list detail_record
}.

Definition counters_init : counters := Counters 0 0 0 0 [].

(** One iteration of the loop over the sorted input DOIs. *)
Definition classify (positive : reference_map) (test : test_map)
    (acc : counters) (input_doi : string) : counters :=
  let input_doi_norm := normalize_key input_doi in
  let predicted_match := mjoin (Dict.get input_doi_norm test) in
  let is_positive_prediction := str_truthy predicted_match in
  let correct_match_set := Dict.get input_doi_norm positive in
  let is_in_ref := optset_truthy correct_match_set in
  let detail_record st :=
    DetailRecord input_doi_norm
      (default "" predicted_match)
      (if is_in_ref
       then PyStr.join " | " (sorted (elements (default ∅ correct_match_set)))
       else "")
      st in
  let append st c :=
    Counters (tp c) (fp c) (fn c) (positive_predictions c)
             (detailed_results c ++ [detail_record st]) in
  if is_positive_prediction then
    let acc := Counters (tp acc) (fp acc) (fn acc)
                        (positive_predictions acc + 1) (detailed_results acc) in
    if is_in_ref then
      if bool_decide (default "" predicted_match ∈ default ∅ correct_match_set)
      then append "TP" (Counters (tp acc + 1) (fp acc) (fn acc)
                          (positive_predictions acc) (detailed_results acc))
      else append "FP" (Counters (tp acc) (fp acc + 1) (fn acc)
                          (positive_predictions acc) (detailed_results acc))
    else append "FP" (Counters (tp acc) (fp acc + 1) (fn acc)
                        (positive_predictions acc) (detailed_results acc))
  else
    if is_in_ref
    then append "FN" (Counters (tp acc) (fp acc) (fn acc + 1)
                        (positive_predictions acc) (detailed_results acc))
    else acc.

(** [calculate_metrics]; [None] would be the [ValueError] of
    [calculate_f_beta] escaping. *)
Definition calculate_metrics (reference : reference_map) (test : test_map)
  : option (metrics * list detail_record) :=
  let positive := positive_references reference in
  let num_positive_references := Z.of_nat (length positive) in
  let acc := foldl (classify positive test) counters_init
                   (all_input_dois reference test) in
  let precision :=
    if (0 <? positive_predictions acc)%Z
    then (inject_Z (tp acc) / inject_Z (positive_predictions acc))%Q
    else 0%Q in
  let recall :=
    if (0 <? num_positive_references)%Z
    then (inject_Z (tp acc) / inject_Z num_positive_references)%Q
    else 0%Q in
  f0_5 ← calculate_f_beta precision recall (1 # 2);
  f1 ← calculate_f_beta precision recall 1;
  f1_5 ← calculate_f_beta precision recall (3 # 2);
  Some (Metrics (tp acc) (fp acc) (fn acc) precision recall f0_5 f1 f1_5
                num_positive_references (positive_predictions acc),
        detailed_results acc).


(** *** Vocabulary for the properties of [calculate_metrics] *)

(** Every key is its own normal form, as in the maps the loaders build. *)
Definition normalized {V : Type} (d : list (string * V)) : Prop :=
  Forall (λ k, normalize_key k = k) (Dict.keys d).

(** The three tests of one loop iteration, as functions of the key. *)
Definition predicts (test : test_map) (k : string) : bool :=
  str_truthy (mjoin (Dict.get k test)).

Definition in_reference (positive : reference_map) (k : string) : bool :=
  optset_truthy (Dict.get k positive).

Definition hits (positive : reference_map) (test : test_map) (k : string)
  : bool :=
  bool_decide (default "" (mjoin (Dict.get k test))
               ∈ default ∅ (Dict.get k positive)).

(** An entry of the reference map whose input has a prediction that is not
    in its reference set. *)
Definition predicted_wrong (test : test_map) (kv : string * gset string)
  : bool :=
  let predicted := mjoin (Dict.get kv.1 test) in
  str_truthy predicted && negb (bool_decide (default "" predicted ∈ kv.2)).

(** The number of inputs with a non-empty reference set whose prediction
    exists but is wrong. *)
Definition wrong_on_reference (reference : reference_map) (test : test_map)
  : Z :=
  Z.of_nat (length (filter (λ kv, predicted_wrong test kv = true)
                           (positive_references reference))).

(** How many elements of a list pass a boolean test. *)
Definition countZ (f : string → bool) (l : list string) : Z :=
  Z.of_nat (length (filter (λ k, f k = true) l)).

(** A string that is empty or starts with a character that is not a
    space. *)
Definition starts_clean (s : string) : bool :=
  match s with
  | EmptyString => true
  | String c _ => negb (PyStr.is_space c)
  end.

(** ** Python values

    The values [json.loads] produces and the matching strategy returns. *)

#[local] Set Warnings "-register-all".
Inductive pyval :=
| PyNone
| PyBool (b : bool)
| PyInt (z : Z)
| PyFloat (q : Q)
| PyStr (s : string)
| PyList (l : list pyval)
| PyDict (d : list (string * pyval)).

(** [bool(v)] *)
Definition truthy (v : pyval) : bool :=
  match v with
  | PyNone => false
  | PyBool b => b
  | PyInt z => negb (z =? 0)%Z
  | PyFloat q => negb (Qeq_bool q 0)
  | PyStr s => PyStr.nonempty s
  | PyList l => match l with [] => false | _ => true end
  | PyDict d => match d with [] => false | _ => true end
  end.

(** [d.get(k)] and [d.get(k, dflt)] *)
Definition py_get (k : string) (d : list (string * pyval)) : pyval :=
  default PyNone (Dict.get k d).

Definition py_get_default (k : string) (dflt : pyval)
    (d : list (string * pyval)) : pyval :=
  default dflt (Dict.get k d).

(** ** The evaluation tool: loaders *)

(** [doi_url.replace("https://doi.org/", "").replace("doi:", "").strip()] *)
Definition strip_doi_prefixes (doi_url : string) : string :=
  PyStr.strip (PyStr.remove "doi:" (PyStr.remove "https://doi.org/" doi_url)).

(** The inner loop of [load_reference_from_json] over an item's [output]
    list. *)
Definition valid_doi_set (related_dois_list : pyval) : gset string :=
  match related_dois_list with
  | PyList l =>
      foldl (λ (acc : gset string) doi_url,
               match doi_url with
               | PyStr s =>
                   let doi_path := strip_doi_prefixes s in
                   if PyStr.nonempty s && PyStr.nonempty doi_path
                   then acc ∪ {[ PyStr.lower doi_path ]}
                   else acc
               | _ => acc
               end) ∅ l
  | _ => ∅
  end.

Section Loaders.

(** [json.loads] on a string; [None] is [JSONDecodeError]. *)
Variable json_loads : string → option pyval.

(** What one item does to the reference dict. [None]: an exception the
    item handler does not catch ([AttributeError], [TypeError]), which makes
    the loader return [None]. *)
Definition load_reference_item (item : pyval) (reference_dict : reference_map)
  : option reference_map :=
  match item with
  | PyDict d =>
      match py_get_default "input" (PyStr "{}") d with
      | PyStr input =>
          match json_loads input with
          | None => Some reference_dict
          | Some (PyDict input_data) =>
              let source_doi := py_get "DOI" input_data in
              if negb (truthy source_doi) then Some reference_dict
              else match source_doi with
                   | PyStr s =>
                       let source_doi := normalize_key s in
                       let valid := valid_doi_set (py_get_default "output" (PyList []) d) in
                       if PyStr.nonempty source_doi
                       then Some (Dict.set source_doi valid reference_dict)
                       else Some reference_dict
                   | _ => None
                   end
          | Some _ => None
          end
      | _ => None
      end
  | _ => None
  end.

(** [load_reference_from_json] applied to the decoded file. *)
Definition load_reference_from_json (data : pyval) : option reference_map :=
  match data with
  | PyDict d =>
      match Dict.get "items" d with
      | Some (PyList items) =>
          foldl (λ acc item, acc ≫= load_reference_item item) (Some []) items
      | _ => None
      end
  | _ => None
  end.

End Loaders.

Definition load_results_item (item : pyval) (results_dict : test_map)
  : option test_map :=
  match item with
  | PyDict d =>
      let key := py_get "input_doi" d in
      let value := py_get "matched_doi" d in
      if negb (truthy key) then Some results_dict
      else match key with
           | PyStr k =>
               if negb (truthy value)
               then Some (Dict.set (normalize_key k) None results_dict)
               else match value with
                    | PyStr v =>
                        Some (Dict.set (normalize_key k)
                                       (Some (normalize_key v)) results_dict)
                    | _ => None
                    end
           | _ => None
           end
  | _ => None
  end.

(** [load_results_from_json] applied to the decoded file. *)
Definition load_results_from_json (data : pyval) : option test_map :=
  match data with
  | PyList items =>
      foldl (λ acc item, acc ≫= load_results_item item) (Some []) items
  | _ => None
  end.

(** ** The matching driver: records, formatting, DOI extraction *)

Record OutputRecord := mkOutputRecord {
  input_doi : string;
  matched_doi : string;
  confidence : string
}.

Inductive output_format := FormatJson | FormatCsv.

(** The two fields of [args] the item loop reads. *)
Record Args := mkArgs {
  format : output_format;
  max_consecutive_line_failures : Z
}.

(** Decimal digits of a natural number. *)
Definition decimal (n : N) : string := NilZero.string_of_uint (N.to_uint n).

Definition digit_char (d : N) : ascii := ascii_of_N (48 + d).

(** Rounding of a non-negative rational to the nearest integer, ties to the
    even one. *)
Definition round_half_even (q : Q) : Z :=
  let n := (2 * Qnum q + Z.pos (Qden q))%Z in
  let d := (2 * Z.pos (Qden q))%Z in
  let r := (n / d)%Z in
  if ((n mod d =? 0) && Z.odd r)%Z then (r - 1)%Z else r.

(** [f"{x:.4f}"] of the number [q]. *)
Definition format_4f (q : Q) : string :=
  let n := Z.to_N (round_half_even (Qabs q * 10000)%Q) in
  let frac := (n mod 10000)%N in
  (if Qle_bool 0 q then "" else "-")
  +:+ decimal (n / 10000)%N
  +:+ String "."%char
        (String (digit_char (frac / 1000))
        (String (digit_char (frac / 100 mod 10))
        (String (digit_char (frac / 10 mod 10))
        (String (digit_char (frac mod 10)) EmptyString)))).





(** The value of an [int] or [float] ([isinstance(v, (int, float))]; a
    [bool] is an [int]). *)
Definition number_value (v : pyval) : option Q :=
  match v with
  | PyInt z => Some (inject_Z z)
  | PyFloat q => Some q
  | PyBool b => Some (if b then 1 else 0)%Q
  | _ => None
  end.

Section Driver.

(** [urlparse(url)] as the pair [(netloc, path)]; [None] is a raised
    [ValueError]. *)
Variable urlparse : string → option (string * string).

(** [json.loads]; [None] is [JSONDecodeError]. *)
Variable json_loads : string → option pyval.

(** [str(v)] for a value that is not a string. *)
Variable py_str_other : pyval → string.

(** [matching_strategy.match(input)] for the item of the given index;
    [None] is a raised exception, [Some PyNone] the critical-failure signal. *)
Variable strategy_match : nat → string → option pyval.

(** Whether [output_writer.writerow(record)] returns normally. *)
Variable csv_writerow_ok : nat → OutputRecord → bool.

(** Whether [json.dump(all_results_json, outfile)] returns normally. *)
Variable json_dump_ok : list OutputRecord → bool.

Variable args : Args.

Definition py_str (v : pyval) : string :=
  match v with PyStr s => s | _ => py_str_other v end.

(** [extract_doi_from_url] *)
Definition extract_doi_from_url (url_string : pyval) : option string :=
  match url_string with
  | PyStr url =>
      if negb (PyStr.nonempty url) then None
      else
        let finish doi_path :=
          let doi_path := PyStr.strip doi_path in
          if PyStr.nonempty doi_path then Some doi_path else None in
        if PyStr.startswith "doi:" (PyStr.lower url)
        then finish (PyStr.strip (PyStr.drop 4 url))
        else match urlparse url with
             | None => None
             | Some (netloc, path) =>
                 if PyStr.nonempty netloc
                    && bool_decide (PyStr.lower netloc = "doi.org")
                 then finish (PyStr.lstrip_slash path)
                 else if PyStr.startswith "10." (PyStr.strip url)
                      then finish (PyStr.strip url)
                      else None
             end
  | _ => None
  end.

(** The confidence string computed from the first match's [confidence]:
    a number is formatted, [None] gives the empty string, anything else
    its [str()]. *)
Definition confidence_str (confidence : pyval) : string :=
  match number_value confidence with
  | Some q => format_4f q
  | None => match confidence with
            | PyNone => ""
            | _ => py_str confidence
            end
  end.

(** What the [try] block of one item leaves behind. *)
Record item_outcome := mkOutcome {
  item_processed_successfully : bool;
  output_record : option OutputRecord;
  matched : bool  (* whether [matched_items] was incremented *)
}.

Definition item_failed : item_outcome := mkOutcome false None false.

(** The input DOI taken from the parsed input record. *)
Definition input_doi_extracted (input_data_parsed : list (string * pyval))
  : string :=
  let doi := py_get "DOI" input_data_parsed in
  if truthy doi then strip_doi_prefixes (py_str doi) else "N/A_MISSING_DOI".

(** The part of the [try] block after the input DOI is known: the strategy
    call and the output record. *)
Definition match_and_record (i : nat) (input_json_string : string)
    (input_doi_extracted : string) : item_outcome :=
  match strategy_match i input_json_string with
  | None => item_failed
  | Some PyNone => item_failed
  | Some matches =>
      let '(matched_doi_extracted, match_confidence_str, matched) :=
        match matches with
        | PyList (first_match :: _) =>
            match first_match with
            | PyDict fm =>
                let matched_doi_url := py_get "id" fm in
                let conf := confidence_str (py_get "confidence" fm) in
                if truthy matched_doi_url then
                  match extract_doi_from_url matched_doi_url with
                  | Some doi => (Some doi, conf, true)
                  | None => (None, "", true)
                  end
                else (None, "", false)
            | _ => (None, "", false)
            end
        | _ => (None, "", false)
        end in
      mkOutcome true
        (Some (mkOutputRecord
                 (if PyStr.startswith "N/A" input_doi_extracted
                  then "" else input_doi_extracted)
                 (default "" matched_doi_extracted)
                 (match matched_doi_extracted with
                  | Some _ => match_confidence_str
                  | None => ""
                  end)))
        matched
  end.

(** The [try] block of the item loop, for an item that is a dict. *)
Definition process_item (i : nat) (item : list (string * pyval))
  : item_outcome :=
  let input_json_string := py_get "input" item in
  if negb (truthy input_json_string) then item_failed
  else match input_json_string with
       | PyStr s =>
           match json_loads s with
           | None => item_failed
           | Some (PyDict input_data_parsed) =>
               match_and_record i s (input_doi_extracted input_data_parsed)
           | Some _ => item_failed
           end
       | _ => item_failed  (* [json.loads] raises [TypeError] *)
       end.

(** A dict item whose [try] block ends with
    [item_processed_successfully = False]. *)
Definition item_fails (i : nat) (item : pyval) : Prop :=
  ∃ d, item = PyDict d
       ∧ item_processed_successfully (process_item i d) = false.

(** Items [i], [i+1], ... of the list all fail. *)
Fixpoint all_fail (i : nat) (items : list pyval) : Prop :=
  match items with
  | [] => True
  | item :: rest => item_fails i item ∧ all_fail (S i) rest
  end.

(** The variables of [process_match_items] that live across items.
    [output_writer] is the list [all_results_json] in the JSON format and
    the rows the csv writer has written to the file in the CSV format. *)
Record loop_state := mkLoop {
  output_writer : list OutputRecord;
  processed_items : Z;
  matched_items : Z;
  items_with_errors : Z;
  consecutive_item_failures : Z;
  processing_halted_by_breaker : bool
}.

Definition loop_init : loop_state := mkLoop [] 0 0 0 0 false.

(** [max_consecutive_line_failures > 0 and
     consecutive_item_failures >= max_consecutive_line_failures] *)
Definition breaker_tripped (consecutive : Z) : bool :=
  ((0 <? max_consecutive_line_failures args)
   && (max_consecutive_line_failures args <=? consecutive))%Z.

Definition halt (st : loop_state) : loop_state :=
  mkLoop (output_writer st) (processed_items st) (matched_items st)
         (items_with_errors st) (consecutive_item_failures st) true.

(** The [finally] block of one item, after its [try] block gave [r]. *)
Definition finish_item (i : nat) (r : item_outcome) (st : loop_state)
  : loop_state :=
  let ok := item_processed_successfully r in
  let st1 :=
    mkLoop (output_writer st)
           (processed_items st + 1)
           (matched_items st + (if matched r then 1 else 0))
           (if ok then items_with_errors st else items_with_errors st + 1)
           (if ok then 0 else consecutive_item_failures st + 1)
           (processing_halted_by_breaker st) in
  if breaker_tripped (consecutive_item_failures st1) then halt st1
  else
    match ok, output_record r with
    | true, Some rec =>
        let written :=
          mkLoop (output_writer st1 ++ [rec]) (processed_items st1)
                 (matched_items st1) (items_with_errors st1)
                 (consecutive_item_failures st1)
                 (processing_halted_by_breaker st1) in
        match format args with
        | FormatJson => written
        | FormatCsv =>
            if csv_writerow_ok i rec then written
            else
              let st2 :=
                mkLoop (output_writer st1) (processed_items st1)
                       (matched_items st1) (items_with_errors st1 + 1)
                       (consecutive_item_failures st1 + 1)
                       (processing_halted_by_breaker st1) in
              if breaker_tripped (consecutive_item_failures st2)
              then halt st2 else st2
        end
    | _, _ => st1
    end.

(** The item loop from index [i] on: a non-dict item is skipped by
    [continue], a tripped breaker leaves the loop by [break]. *)
Fixpoint item_loop (i : nat) (items : list pyval) (st : loop_state)
  : loop_state :=
  match items with
  | [] => st
  | item :: rest =>
      match item with
      | PyDict d =>
          let st' := finish_item i (process_item i d) st in
          if processing_halted_by_breaker st' then st'
          else item_loop (S i) rest st'
      | _ => item_loop (S i) rest st
      end
  end.

(** The output file when the [with] block is left. *)
Inductive outfile :=
| CsvFile (rows : list OutputRecord)       (* the header and these rows *)
| JsonFile (records : list OutputRecord)   (* the dumped list *)
| JsonNotWritten                           (* nothing was dumped: empty file *)
| JsonDumpFailed.                          (* [json.dump] raised part-way *)

(** The records a reader finds in the output file. *)
Definition file_records (f : outfile) : list OutputRecord :=
  match f with
  | CsvFile rows => rows
  | JsonFile records => records
  | JsonNotWritten | JsonDumpFailed => []
  end.

Record run_result := mkRun {
  final : loop_state;
  file : outfile;
  success : bool   (* the value [process_match_items] returns *)
}.

(** [process_match_items], from the opened output file to the return. *)
Definition process_match_items (items_list : list pyval) : run_result :=
  let st := item_loop 0 items_list loop_init in
  let halted := processing_halted_by_breaker st in
  let '(file, errors) :=
    match format args with
    | FormatCsv => (CsvFile (output_writer st), items_with_errors st)
    | FormatJson =>
        if halted then (JsonNotWritten, items_with_errors st)
        else if json_dump_ok (output_writer st)
             then (JsonFile (output_writer st), items_with_errors st)
             else (JsonDumpFailed, (items_with_errors st + 1)%Z)
    end in
  mkRun (mkLoop (output_writer st) (processed_items st) (matched_items st)
                errors (consecutive_item_failures st) halted)
        file
        ((errors =? 0)%Z && negb halted).

End Driver.

(** ** Values of the library calls at the strings of the examples *)

Definition dq : string := String (ascii_of_nat 34) EmptyString.

(** The JSON document [{"DOI": "<doi>"}]. *)
Definition doi_document (doi : string) : string :=
  "{" +:+ dq +:+ "DOI" +:+ dq +:+ ": " +:+ dq +:+ doi +:+ dq +:+ "}".

(** [json.loads] at the documents the examples use: the empty object, the
    empty array, three one-field records, and text that is not JSON. *)
Definition example_json_loads (s : string) : option pyval :=
  if decide (s = "{}") then Some (PyDict [])
  else if decide (s = "[]") then Some (PyList [])
  else if decide (s = doi_document "10.1/a")
       then Some (PyDict [("DOI", PyStr "10.1/a")])
  else if decide (s = doi_document "10.1/b")
       then Some (PyDict [("DOI", PyStr "10.1/b")])
  else if decide (s = doi_document "https://doi.org/10.1/ABC")
       then Some (PyDict [("DOI", PyStr "https://doi.org/10.1/ABC")])
  else if decide (s = doi_document "doi:10.1/ABC")
       then Some (PyDict [("DOI", PyStr "doi:10.1/ABC")])
  else if decide (s = doi_document "10.1/ABC")
       then Some (PyDict [("DOI", PyStr "10.1/ABC")])
  else None.

(** [urlparse] at the URLs the examples use; a string without a scheme has
    an empty [netloc] and is its own [path]. *)
Definition example_urlparse (url : string) : option (string * string) :=
  if decide (url = "https://doi.org/10.1/x") then Some ("doi.org", "/10.1/x")
  else if decide (url = "https://example.org/article/7")
       then Some ("example.org", "/article/7")
  else Some ("", url).

(** [str(v)] is only ever asked for strings in the examples. *)
Definition example_py_str_other (v : pyval) : string := "<object>".

Definition always_written (i : nat) (r : OutputRecord) : bool := true.

Definition always_dumped (l : list OutputRecord) : bool := true.

(** A strategy for the examples: a match with a DOI URL for 10.1/a and for
    the URL spelling of 10.1/ABC, a match whose [id] is not a DOI for
    10.1/b, a match with a confidence that is not a number for the record
    without DOI, no match otherwise. *)
Definition example_strategy (i : nat) (input : string) : option pyval :=
  if decide (input = doi_document "10.1/a")
  then Some (PyList [PyDict [("id", PyStr "https://doi.org/10.1/x");
                             ("confidence", PyFloat (9 # 10))]])
  else if decide (input = doi_document "10.1/b")
  then Some (PyList [PyDict [("id", PyStr "https://example.org/article/7");
                             ("confidence", PyFloat (8 # 10))]])
  else if decide (input = doi_document "https://doi.org/10.1/ABC")
  then Some (PyList [PyDict [("id", PyStr "https://doi.org/10.1/x");
                             ("confidence", PyFloat (9 # 10))]])
  else if decide (input = "{}")
  then Some (PyList [PyDict [("id", PyStr "doi:10.1/x");
                             ("confidence", PyStr "high")]])
  else Some (PyList []).

(** [process_match_items] on the example environment. *)
Definition example_run (args : Args) (items : list pyval) : run_result :=
  process_match_items example_urlparse example_json_loads
    example_py_str_other example_strategy always_written always_dumped
    args items.

(** An item with the input [{"DOI": "10.1/a"}], an item with the input
    [{"DOI": "10.1/b"}], an item whose input record has no DOI, an item
    without [input], and an item whose [input] is not JSON. *)
Definition item_a : pyval := PyDict [("input", PyStr (doi_document "10.1/a"))].
Definition item_b : pyval := PyDict [("input", PyStr (doi_document "10.1/b"))].
Definition item_no_doi : pyval := PyDict [("input", PyStr "{}")].
Definition item_no_input : pyval := PyDict [].
Definition item_bad_json : pyval := PyDict [("input", PyStr "not json")].

(** An item of the test data whose input DOI is spelled as a URL, with its
    reference match. *)
Definition item_url_doi : pyval :=
  PyDict [("input", PyStr (doi_document "https://doi.org/10.1/ABC"));
          ("output", PyList [PyStr "https://doi.org/10.1/X"])].

(** The decoded content of a results file that holds the given records. *)
Definition results_file (records : list OutputRecord) : pyval :=
  PyList ((λ r, PyDict [("input_doi", PyStr (input_doi r));
                        ("matched_doi", PyStr (matched_doi r));
                        ("confidence", PyStr (confidence r))]) <$> records).

(** ** The evaluation tool: [main] *)



(** The detail record one loop iteration of [calculate_metrics] appends
    for a normalised input DOI, if any. *)
Definition detail_of (positive : reference_map) (test : test_map)
    (k : string) : option detail_record :=
  let reference_doi :=
    if in_reference positive k
    then PyStr.join " | " (sorted (elements (default ∅ (Dict.get k positive))))
    else "" in
  let predicted_doi := default "" (mjoin (Dict.get k test)) in
  if predicts test k
  then Some (DetailRecord k predicted_doi reference_doi
               (if in_reference positive k && hits positive test k
                then "TP" else "FP"))
  else if in_reference positive k
       then Some (DetailRecord k predicted_doi reference_doi "FN")
       else None.

(** How many detail records carry a given status. *)
Definition count_status (s : string) (details : list detail_record) : Z :=
  Z.of_nat (length (filter (λ r, status r = s) details)).

(** ** The matching driver: [main] after the input file is decoded *)

(** [isinstance(v, str)] *)
Definition is_str (v : pyval) : bool :=
  match v with PyStr _ => true | _ => false end.

(** [isinstance(item, dict)] *)
Definition is_dict (item : pyval) : bool :=
  match item with PyDict _ => true | _ => false end.

(** The number of items that are objects. *)
Definition dict_item_count (items : list pyval) : Z :=
  Z.of_nat (length (filter (λ item, is_dict item = true) items)).

Section DriverMain.

Variable urlparse : string → option (string * string).
Variable json_loads : string → option pyval.
Variable py_str_other : pyval → string.
Variable strategy_match : nat → string → option pyval.
Variable csv_writerow_ok : nat → OutputRecord → bool.
Variable json_dump_ok : list OutputRecord → bool.
Variable args : Args.

(** The output records of the items from index [i] on, in order: one for
    each object item whose [try] block builds a record. *)
Fixpoint records_of_items (i : nat) (items : list pyval)
  : list OutputRecord :=
  match items with
  | [] => []
  | PyDict d :: rest =>
      option_list
        (output_record
           (process_item urlparse json_loads py_str_other strategy_match i d))
      ++ records_of_items (S i) rest
  | _ :: rest => records_of_items (S i) rest
  end.

(** Items [i], [i+1], ... are all objects whose [try] block succeeds. *)
Fixpoint all_succeed (i : nat) (items : list pyval) : Prop :=
  match items with
  | [] => True
  | item :: rest =>
      (∃ d, item = PyDict d
            ∧ item_processed_successfully
                (process_item urlparse json_loads py_str_other
                              strategy_match i d) = true)
      ∧ all_succeed (S i) rest
  end.

(** What the loop keeps true of its variables while it runs: every
    processed item was written or counted as an error; the consecutive
    failures are among the errors; a halted loop has its counter exactly at
    the threshold, a running loop has it below. *)
Definition loop_invariant_holds (st : loop_state) : Prop :=
  processed_items st
  = (Z.of_nat (length (output_writer st)) + items_with_errors st)%Z
  ∧ (0 <= consecutive_item_failures st)%Z
  ∧ (consecutive_item_failures st <= items_with_errors st)%Z
  ∧ (0 <= matched_items st)%Z
  ∧ (matched_items st <= processed_items st)%Z
  ∧ (processing_halted_by_breaker st = false →
     (max_consecutive_line_failures args <= 0)%Z
     ∨ (consecutive_item_failures st < max_consecutive_line_failures args)%Z)
  ∧ (processing_halted_by_breaker st = true →
     (0 < max_consecutive_line_failures args)%Z
     ∧ consecutive_item_failures st = max_consecutive_line_failures args).

(** The exit status of [main] and the run it made, if it got that far,
    given the decoded input file. *)
Definition main_after_load (input_data : pyval) : Z * option run_result :=
  match input_data with
  | PyDict d =>
      match Dict.get "items" d with
      | Some (PyList items_to_process) =>
          match items_to_process with
          | [] => (0%Z, None)
          | _ =>
              let r := process_match_items urlparse json_loads py_str_other
                         strategy_match csv_writerow_ok json_dump_ok args
                         items_to_process in
              (if success r then 0%Z else 1%Z, Some r)
          end
      | _ => (1%Z, None)
      end
  | _ => (1%Z, None)
  end.

End DriverMain.

(** * Properties *)

(** ** F-beta *)



(** A positive [beta] never raises, whatever the precision and recall. *)
Lemma calculate_f_beta_total (P R beta : Q) :
  (0 < beta)%Q → is_Some (calculate_f_beta P R beta).
Proof.
  intros Hb. unfold calculate_f_beta.
  destruct (Qeq_bool P 0 && Qeq_bool R 0); [by eexists|].
  destruct (Qle_bool beta 0) eqn:Hle.
  { apply Qle_bool_iff in Hle. lra. }
  destruct (Qeq_bool _ 0); by eexists.
Qed.



(** ** [calculate_metrics]: the scenario of the specification *)

(** C6. The scenario: reference [{"10.1/a": {"10.1/x"}, "10.1/b": {}}] and
    results [{"10.1/a": "10.1/x", "10.1/b": "10.1/z"}] give TP=1, FP=1, FN=0,
    Precision 0.5, Recall 1.0 and F1 = 2/3, which is 0.667 to three
    decimals. *)
Theorem calculate_metrics_scenario :
  ∃ m details,
    calculate_metrics [("10.1/a", {["10.1/x"]}); ("10.1/b", ∅)]
                      [("10.1/a", Some "10.1/x"); ("10.1/b", Some "10.1/z")]
      = Some (m, details)
    ∧ TP m = 1%Z ∧ FP m = 1%Z ∧ FN m = 0%Z
    ∧ (Precision m == (1 # 2))%Q ∧ (Recall m == 1)%Q
    ∧ (F1 m == (2 # 3))%Q
    ∧ (Qabs (F1 m - (667 # 1000)) < (5 # 10000))%Q.
Proof.
  eexists _, _. split; [vm_compute; reflexivity|].
  repeat split; vm_compute; congruence.
Qed.

(** C1, refuted as stated: with two inputs that both have a reference set,
    one predicted correctly and one predicted wrongly, the tool reports
    TP=1 and FN=0 but Recall 1/2, not TP/(TP+FN) = 1. *)
Lemma recall_is_not_tp_over_tp_fn :
  ∃ m details,
    calculate_metrics
      [("10.1/a", {["10.1/x"]}); ("10.1/b", {["10.1/y"]})]
      [("10.1/a", Some "10.1/x"); ("10.1/b", Some "10.1/z")]
      = Some (m, details)
    ∧ TP m = 1%Z ∧ FP m = 1%Z ∧ FN m = 0%Z
    ∧ (Recall m == (1 # 2))%Q
    ∧ ¬ (Recall m == inject_Z (TP m) / inject_Z (TP m + FN m))%Q.
Proof.
  eexists _, _. split; [vm_compute; reflexivity|].
  repeat split; vm_compute; congruence.
Qed.

(** ** Dictionaries *)

Lemma fmap_fixed_id {A : Type} (f : A → A) (l : list A) :
  Forall (λ x, f x = x) l → f <$> l = l.
Proof. induction 1; simpl; [done|]. by f_equal. Qed.

Lemma dict_get_Some_elem {V : Type} (d : list (string * V)) k v :
  Dict.get k d = Some v → (k, v) ∈ d.
Proof.
  induction d as [|[k' v'] d IH]; simpl; [done|].
  case_decide as Hk.
  - intros [= ->]. subst. left.
  - intros ?. right. auto.
Qed.

Lemma dict_get_None {V : Type} (d : list (string * V)) k :
  Dict.get k d = None ↔ k ∉ Dict.keys d.
Proof.
  unfold Dict.keys. induction d as [|[k' v'] d IH]; simpl.
  - split; [intros _; apply not_elem_of_nil|done].
  - rewrite not_elem_of_cons. case_decide as Hk.
    + split; [done|]. by intros [? _].
    + rewrite IH. split; [by split|by intros [_ ?]].
Qed.

Lemma dict_elem_get {V : Type} (d : list (string * V)) k v :
  Dict.wf d → (k, v) ∈ d → Dict.get k d = Some v.
Proof.
  unfold Dict.wf, Dict.keys.
  induction d as [|[k' v'] d IH]; simpl; intros Hwf Hin.
  - by apply elem_of_nil in Hin.
  - apply NoDup_cons in Hwf as [Hk' Hwf].
    apply elem_of_cons in Hin as [[= -> ->]|Hin].
    + by rewrite decide_True.
    + rewrite decide_False; [by apply IH|].
      intros ->. apply Hk'. apply list_elem_of_fmap. by exists (k', v).
Qed.

Lemma dict_wf_filter {V : Type} (P : string * V → Prop)
    `{∀ kv, Decision (P kv)} (d : list (string * V)) :
  Dict.wf d → Dict.wf (filter P d).
Proof.
  unfold Dict.wf, Dict.keys. intros Hwf.
  apply (sublist_NoDup _ (d.*1)); [exact Hwf|].
  apply fmap_sublist, sublist_filter.
Qed.

(** Two dicts with the same bindings answer every lookup alike, whatever
    the insertion order. *)
Lemma dict_get_perm {V : Type} (d d' : list (string * V)) k :
  Dict.wf d → d ≡ₚ d' → Dict.get k d = Dict.get k d'.
Proof.
  intros Hwf Hp.
  assert (Hwf' : Dict.wf d').
  { unfold Dict.wf, Dict.keys in *. by rewrite <- Hp. }
  destruct (Dict.get k d) as [v|] eqn:Hg.
  - symmetry. apply dict_elem_get; [done|].
    rewrite <- Hp. by apply dict_get_Some_elem.
  - symmetry. apply dict_get_None. apply dict_get_None in Hg.
    unfold Dict.keys in *. by rewrite <- Hp.
Qed.

(** Counting the keys of a list [L] whose binding passes a test is counting
    the bindings that pass it, when [L] lists every key once. *)
Lemma count_bindings {V : Type} (d : list (string * V))
    (P : string * V → bool) (L : list string) :
  NoDup L → Dict.wf d → (∀ k, k ∈ Dict.keys d → k ∈ L) →
  length (filter (λ k, match Dict.get k d with
                       | Some v => P (k, v)
                       | None => false
                       end = true) L)
  = length (filter (λ kv, P kv = true) d).
Proof.
  intros HL Hwf Hsub.
  rewrite <- (length_fmap fst (filter _ d)).
  apply Permutation_length, NoDup_Permutation.
  - by apply NoDup_filter.
  - by apply (dict_wf_filter (λ kv, P kv = true)).
  - intros k. rewrite list_elem_of_filter, list_elem_of_fmap. split.
    + intros [Hk _]. destruct (Dict.get k d) as [v|] eqn:Hg; [|done].
      exists (k, v). split; [done|].
      apply list_elem_of_filter. split; [done|]. by apply dict_get_Some_elem.
    + intros [[k' v] [-> [HP Hin]%list_elem_of_filter]]. simpl.
      rewrite (dict_elem_get d k' v Hwf Hin). split; [done|].
      apply Hsub. unfold Dict.keys. apply list_elem_of_fmap. by exists (k', v).
Qed.

(** ** The loop of [calculate_metrics] *)

Lemma countZ_nil f : countZ f [] = 0%Z.
Proof. reflexivity. Qed.

Lemma countZ_cons f k l :
  countZ f (k :: l) = ((if f k then 1 else 0) + countZ f l)%Z.
Proof.
  unfold countZ. rewrite filter_cons.
  destruct (f k); simpl; [|done]. lia.
Qed.

Lemma countZ_ext f g l :
  (∀ k, k ∈ l → f k = g k) → countZ f l = countZ g l.
Proof.
  induction l as [|k l IH]; intros Hfg; [done|].
  rewrite !countZ_cons, IH, (Hfg k); [done|left|].
  intros k' Hk'. apply Hfg. by right.
Qed.

(** The sorted list of input DOIs lists every key of either map once. *)
Lemma all_input_dois_elem reference test k :
  k ∈ all_input_dois reference test
  ↔ k ∈ Dict.keys reference ∨ k ∈ Dict.keys test.
Proof.
  unfold all_input_dois, sorted.
  rewrite merge_sort_Permutation, elem_of_elements, elem_of_union.
  by rewrite !elem_of_list_to_set.
Qed.

Lemma all_input_dois_NoDup reference test :
  NoDup (all_input_dois reference test).
Proof.
  unfold all_input_dois, sorted.
  rewrite merge_sort_Permutation. apply NoDup_elements.
Qed.

Lemma all_input_dois_sorted reference test :
  StronglySorted String.le (all_input_dois reference test).
Proof. apply StronglySorted_merge_sort; apply _. Qed.

Lemma all_input_dois_normalized reference test :
  normalized reference → normalized test →
  Forall (λ k, normalize_key k = k)
         (all_input_dois reference test).
Proof.
  unfold normalized. rewrite !Forall_forall. intros Hr Ht k Hk.
  apply all_input_dois_elem in Hk as [?|?]; auto.
Qed.

(** What one iteration does to each counter and to the list of details. *)
Lemma classify_spec positive test acc k :
  let k' := normalize_key k in
  let c := classify positive test acc k in
  tp c = (tp acc + if predicts test k' && in_reference positive k'
                      && hits positive test k' then 1 else 0)%Z
  ∧ fp c = (fp acc + if predicts test k'
                        && negb (in_reference positive k'
                                 && hits positive test k') then 1 else 0)%Z
  ∧ fn c = (fn acc + if negb (predicts test k') && in_reference positive k'
                     then 1 else 0)%Z
  ∧ positive_predictions c
    = (positive_predictions acc + if predicts test k' then 1 else 0)%Z
  ∧ detail_input_doi <$> detailed_results c
    = (detail_input_doi <$> detailed_results acc)
      ++ (if predicts test k' || in_reference positive k' then [k'] else []).
Proof.
  intros k' c. subst c. unfold classify, predicts, in_reference, hits.
  fold k'.
  destruct (str_truthy (mjoin (Dict.get k' test)));
    destruct (optset_truthy (Dict.get k' positive)); simpl;
    [destruct (bool_decide _); simpl|..];
    rewrite ?fmap_app, ?app_nil_r; simpl; repeat split; lia.
Qed.

Lemma foldl_classify_spec positive test l acc :
  let c := foldl (classify positive test) acc l in
  let l' := normalize_key <$> l in
  tp c = (tp acc + countZ (λ k, predicts test k && in_reference positive k
                                 && hits positive test k) l')%Z
  ∧ fp c = (fp acc + countZ (λ k, predicts test k
                                   && negb (in_reference positive k
                                            && hits positive test k)) l')%Z
  ∧ fn c = (fn acc + countZ (λ k, negb (predicts test k)
                                   && in_reference positive k) l')%Z
  ∧ positive_predictions c
    = (positive_predictions acc + countZ (predicts test) l')%Z
  ∧ detail_input_doi <$> detailed_results c
    = (detail_input_doi <$> detailed_results acc)
      ++ filter (λ k, predicts test k || in_reference positive k = true) l'.
Proof.
  revert acc. induction l as [|k l IH]; intros acc; cbv zeta.
  - cbn [foldl]. rewrite fmap_nil, !countZ_nil, !Z.add_0_r, filter_nil, app_nil_r.
    done.
  - cbn [foldl]. rewrite fmap_cons.
    specialize (IH (classify positive test acc k)). cbv zeta in IH.
    destruct IH as (IH1 & IH2 & IH3 & IH4 & IH5).
    destruct (classify_spec positive test acc k) as (C1 & C2 & C3 & C4 & C5).
    rewrite IH1, IH2, IH3, IH4, IH5, C1, C2, C3, C4, C5.
    rewrite !countZ_cons, filter_cons, <- !app_assoc.
    repeat split; try lia.
    f_equal. by destruct (predicts test _ || in_reference positive _).
Qed.

(** Every entry of the positive references has a non-empty set. *)
Lemma positive_references_truthy reference :
  Forall (λ kv, set_truthy kv.2 = true) (positive_references reference).
Proof.
  apply Forall_forall. intros kv Hkv.
  by apply list_elem_of_filter in Hkv as [? _].
Qed.

Lemma positive_references_wf reference :
  Dict.wf reference → Dict.wf (positive_references reference).
Proof. apply (dict_wf_filter (λ kv, set_truthy kv.2 = true)). Qed.

Lemma positive_references_keys reference k :
  k ∈ Dict.keys (positive_references reference) → k ∈ Dict.keys reference.
Proof.
  unfold Dict.keys, positive_references. rewrite !list_elem_of_fmap.
  intros (kv & -> & [_ ?]%list_elem_of_filter). by exists kv.
Qed.

Lemma filter_length_ext {A : Type} (P Q : A → Prop)
    `{∀ x, Decision (P x), ∀ x, Decision (Q x)} (l : list A) :
  (∀ x, x ∈ l → P x ↔ Q x) → length (filter P l) = length (filter Q l).
Proof.
  induction l as [|x l IH]; intros HPQ; [done|].
  rewrite !filter_cons.
  assert (Hl : length (filter P l) = length (filter Q l)).
  { apply IH. intros y Hy. apply HPQ. by right. }
  assert (Hx : P x ↔ Q x) by (apply HPQ; left).
  repeat case_decide; simpl; tauto || lia.
Qed.

Lemma filter_Forall_id {A : Type} (P : A → Prop) `{∀ x, Decision (P x)}
    (l : list A) :
  Forall P l → filter P l = l.
Proof.
  induction 1 as [|x l Hx _ IH]; [done|].
  rewrite filter_cons, decide_True by done. by f_equal.
Qed.

(** The inputs with a reference set are counted once each: as a true
    positive, as a false negative, or as a wrong prediction. *)
Lemma positive_references_partition reference test :
  Dict.wf reference → normalized reference → normalized test →
  let c := foldl (classify (positive_references reference) test)
                 counters_init (all_input_dois reference test) in
  Z.of_nat (length (positive_references reference))
  = (tp c + fn c + wrong_on_reference reference test)%Z.
Proof.
  intros Hwf Hnr Hnt. cbv zeta.
  set (positive := positive_references reference).
  set (L := all_input_dois reference test).
  assert (HL : normalize_key <$> L = L).
  { by apply fmap_fixed_id, all_input_dois_normalized. }
  destruct (foldl_classify_spec positive test L counters_init)
    as (Htp & _ & Hfn & _).
  cbv zeta in Htp, Hfn. rewrite HL in Htp, Hfn. simpl in Htp, Hfn.
  assert (Hsub : ∀ k, k ∈ Dict.keys positive → k ∈ L).
  { intros k Hk. apply all_input_dois_elem. left.
    by apply positive_references_keys. }
  pose proof (all_input_dois_NoDup reference test) as HLnd. fold L in HLnd.
  pose proof (positive_references_wf reference Hwf) as Hpwf.
  fold positive in Hpwf.
  pose proof (positive_references_truthy reference) as Hall.
  fold positive in Hall. rewrite Forall_forall in Hall.
  (* the wrong predictions, counted over the sorted keys *)
  assert (Hw : wrong_on_reference reference test
               = countZ (λ k, predicts test k && in_reference positive k
                              && negb (hits positive test k)) L).
  { unfold wrong_on_reference, countZ. fold positive. f_equal.
    rewrite <- (count_bindings positive (predicted_wrong test) L HLnd Hpwf Hsub).
    apply filter_length_ext. intros k _.
    unfold predicts, in_reference, hits, predicted_wrong.
    destruct (Dict.get k positive) as [v|] eqn:Hg; simpl.
    - assert (Hv : set_truthy v = true).
      { apply (Hall (k, v)). by apply dict_get_Some_elem. }
      rewrite Hv, andb_true_r. done.
    - rewrite andb_false_r. done. }
  (* the inputs with a reference set, counted over the sorted keys *)
  assert (Hp : Z.of_nat (length positive) = countZ (in_reference positive) L).
  { unfold countZ. f_equal.
    transitivity (length (filter (λ kv, set_truthy kv.2 = true) positive)).
    - f_equal. symmetry. apply filter_Forall_id. by apply Forall_forall.
    - rewrite <- (count_bindings positive (λ kv, set_truthy kv.2)
                    L HLnd Hpwf Hsub).
      apply filter_length_ext. intros k _. unfold in_reference, optset_truthy.
      by destruct (Dict.get k positive). }
  rewrite Hp, Htp, Hfn, Hw. clear.
  induction L as [|k L IH]; [done|]. rewrite !countZ_cons, IH.
  destruct (predicts test k), (in_reference positive k),
    (hits positive test k); simpl; lia.
Qed.

(** The F-scores of [calculate_metrics] never raise: the tool always
    returns its metrics. *)
Lemma calculate_metrics_total reference test :
  ∃ m details, calculate_metrics reference test = Some (m, details)
    ∧ TP m = tp (foldl (classify (positive_references reference) test)
                       counters_init (all_input_dois reference test))
    ∧ FN m = fn (foldl (classify (positive_references reference) test)
                       counters_init (all_input_dois reference test))
    ∧ Positive_References m
      = Z.of_nat (length (positive_references reference))
    ∧ Recall m
      = (if (0 <? Positive_References m)%Z
         then inject_Z (TP m) / inject_Z (Positive_References m) else 0)%Q
    ∧ details
      = detailed_results
          (foldl (classify (positive_references reference) test)
                 counters_init (all_input_dois reference test)).
Proof.
  unfold calculate_metrics.
  set (acc := foldl _ _ _). set (P := if (0 <? positive_predictions acc)%Z
                                      then _ else _).
  set (R := if (0 <? Z.of_nat _)%Z then _ else _).
  destruct (calculate_f_beta_total P R (1 # 2)) as [f05 ->]; [done|].
  destruct (calculate_f_beta_total P R 1) as [f1 ->]; [done|].
  destruct (calculate_f_beta_total P R (3 # 2)) as [f15 ->]; [done|].
  simpl. eexists _, _. split; [reflexivity|]. simpl. done.
Qed.

(** C1, as the code has it. For maps as the loaders build them (distinct,
    normalised keys) the Recall is TP divided by the number of inputs with a
    non-empty reference set, and that number is TP + FN plus the inputs
    with a reference set whose prediction exists but is wrong (they are
    counted FP). So Recall is TP/(TP+FN) exactly when no such input exists. *)
Theorem recall_over_positive_references reference test :
  Dict.wf reference → normalized reference → normalized test →
  ∃ m details,
    calculate_metrics reference test = Some (m, details)
    ∧ Positive_References m
      = (TP m + FN m + wrong_on_reference reference test)%Z
    ∧ Recall m
      = (if (0 <? Positive_References m)%Z
         then inject_Z (TP m) / inject_Z (Positive_References m) else 0)%Q
    ∧ (wrong_on_reference reference test = 0%Z → (0 < TP m + FN m)%Z →
       (Recall m == inject_Z (TP m) / inject_Z (TP m + FN m))%Q)
    ∧ ((0 < wrong_on_reference reference test)%Z → (0 < TP m)%Z →
       (Recall m < inject_Z (TP m) / inject_Z (TP m + FN m))%Q).
Proof.
  intros Hwf Hnr Hnt.
  destruct (calculate_metrics_total reference test)
    as (m & details & Hm & Htp & Hfn & Hpr & Hrec & _).
  pose proof (positive_references_partition reference test Hwf Hnr Hnt) as Hp.
  cbv zeta in Hp. rewrite <- Htp, <- Hfn, <- Hpr in Hp.
  exists m, details. split; [done|]. split; [done|]. split; [done|].
  assert (Hw0 : (0 <= wrong_on_reference reference test)%Z).
  { unfold wrong_on_reference. lia. }
  assert (Hfn0 : (0 <= FN m)%Z).
  { rewrite Hfn.
    destruct (foldl_classify_spec (positive_references reference) test
                (all_input_dois reference test) counters_init)
      as (_ & _ & -> & _).
    unfold countZ. simpl. lia. }
  split.
  - intros Hw Hpos. rewrite Hrec, Hp, Hw, Z.add_0_r.
    apply Z.ltb_lt in Hpos. by rewrite Hpos.
  - intros Hw Htp0. rewrite Hrec.
    assert (Hpos : (0 <? Positive_References m)%Z = true)
      by (apply Z.ltb_lt; lia).
    rewrite Hpos, Hp. unfold Qdiv.
    assert (H0 : (0 < inject_Z (TP m))%Q) by (by rewrite <- (Zlt_Qlt 0)).
    apply (proj2 (Qmult_lt_l _ _ _ H0)).
    assert (H1 : (0 < inject_Z (TP m + FN m))%Q)
      by (rewrite <- (Zlt_Qlt 0); lia).
    assert (H2 : (inject_Z (TP m + FN m)
                  < inject_Z (TP m + FN m + wrong_on_reference reference test))%Q)
      by (rewrite <- Zlt_Qlt; lia).
    assert (H3 : (0 < inject_Z (TP m + FN m
                                + wrong_on_reference reference test))%Q)
      by lra.
    apply (proj1 (Qinv_lt_contravar _ _ H1 H3)). exact H2.
Qed.

Lemma recall_over_positive_references_witness :
  ∃ m details,
    calculate_metrics
      [("10.1/a", {["10.1/x"]}); ("10.1/b", {["10.1/y"]})]
      [("10.1/a", Some "10.1/x"); ("10.1/b", Some "10.1/z")]
      = Some (m, details)
    ∧ Positive_References m
      = (TP m + FN m
         + wrong_on_reference
             [("10.1/a", {["10.1/x"]}); ("10.1/b", {["10.1/y"]})]
             [("10.1/a", Some "10.1/x"); ("10.1/b", Some "10.1/z")])%Z
    ∧ Recall m
      = (if (0 <? Positive_References m)%Z
         then inject_Z (TP m) / inject_Z (Positive_References m) else 0)%Q
    ∧ (wrong_on_reference
         [("10.1/a", {["10.1/x"]}); ("10.1/b", {["10.1/y"]})]
         [("10.1/a", Some "10.1/x"); ("10.1/b", Some "10.1/z")] = 0%Z →
       (0 < TP m + FN m)%Z →
       (Recall m == inject_Z (TP m) / inject_Z (TP m + FN m))%Q)
    ∧ ((0 < wrong_on_reference
              [("10.1/a", {["10.1/x"]}); ("10.1/b", {["10.1/y"]})]
              [("10.1/a", Some "10.1/x"); ("10.1/b", Some "10.1/z")])%Z →
       (0 < TP m)%Z →
       (Recall m < inject_Z (TP m) / inject_Z (TP m + FN m))%Q).
Proof.
  apply (recall_over_positive_references
           [("10.1/a", {["10.1/x"]}); ("10.1/b", {["10.1/y"]})]
           [("10.1/a", Some "10.1/x"); ("10.1/b", Some "10.1/z")]).
  - apply (bool_decide_unpack _). vm_compute. exact I.
  - repeat constructor.
  - repeat constructor.
Defined.

(** ** Determinism of [calculate_metrics] *)

Lemma foldl_fun_ext {A B : Type} (f g : A → B → A) (l : list B) (a : A) :
  (∀ a x, f a x = g a x) → foldl f a l = foldl g a l.
Proof.
  intros Hfg. revert a. induction l as [|x l IH]; intros a; simpl; [done|].
  by rewrite Hfg, IH.
Qed.

Lemma classify_lookup_ext positive positive' test test' acc k :
  (∀ k, Dict.get k positive = Dict.get k positive') →
  (∀ k, Dict.get k test = Dict.get k test') →
  classify positive test acc k = classify positive' test' acc k.
Proof. intros Hp Ht. unfold classify. by rewrite Hp, Ht. Qed.

Lemma StronglySorted_filter {A : Type} (R : relation A) (P : A → Prop)
    `{∀ x, Decision (P x)} (l : list A) :
  StronglySorted R l → StronglySorted R (filter P l).
Proof.
  induction 1 as [|x l Hl IH Hx]; [constructor|].
  rewrite filter_cons. case_decide; [|done].
  constructor; [done|].
  apply Forall_forall. intros y [_ Hy]%list_elem_of_filter.
  by apply (proj1 (Forall_forall _ _) Hx).
Qed.

(** ** Normalised keys: what the loaders guarantee *)

Lemma is_space_lower_char c : PyStr.is_space (PyStr.lower_char c) = PyStr.is_space c.
Proof. destruct c as [[] [] [] [] [] [] [] []]; reflexivity. Qed.

Lemma lower_char_idemp c :
  PyStr.lower_char (PyStr.lower_char c) = PyStr.lower_char c.
Proof. destruct c as [[] [] [] [] [] [] [] []]; reflexivity. Qed.

Lemma lower_idemp s : PyStr.lower (PyStr.lower s) = PyStr.lower s.
Proof. induction s as [|c s IH]; simpl; [done|]. by rewrite lower_char_idemp, IH. Qed.

Lemma lstrip_lower s : PyStr.lstrip (PyStr.lower s) = PyStr.lower (PyStr.lstrip s).
Proof.
  induction s as [|c s IH]; simpl; [done|].
  rewrite is_space_lower_char. by destruct (PyStr.is_space c).
Qed.

Lemma rev_app_lower s1 s2 :
  PyStr.lower (String.rev_app s1 s2)
  = String.rev_app (PyStr.lower s1) (PyStr.lower s2).
Proof. revert s2. induction s1 as [|c s1 IH]; intros s2; simpl; [done|]. by rewrite IH. Qed.

Lemma rev_lower s : PyStr.lower (String.rev s) = String.rev (PyStr.lower s).
Proof. apply rev_app_lower. Qed.

Lemma strip_lower s : PyStr.strip (PyStr.lower s) = PyStr.lower (PyStr.strip s).
Proof.
  unfold PyStr.strip, PyStr.rstrip.
  by rewrite lstrip_lower, <- rev_lower, lstrip_lower, <- rev_lower.
Qed.

(** Reversal and concatenation of strings. *)
Lemma str_app_cons c s1 s2 : String c s1 +:+ s2 = String c (s1 +:+ s2).
Proof. reflexivity. Qed.

Lemma str_app_nil_r s : s +:+ "" = s.
Proof. induction s as [|c s IH]; [done|]. by rewrite str_app_cons, IH. Qed.

Lemma str_app_assoc s1 s2 s3 : (s1 +:+ s2) +:+ s3 = s1 +:+ (s2 +:+ s3).
Proof.
  induction s1 as [|c s1 IH]; [done|]. by rewrite !str_app_cons, IH.
Qed.

Lemma rev_app_eq s1 s2 : String.rev_app s1 s2 = String.rev s1 +:+ s2.
Proof.
  unfold String.rev. revert s2.
  induction s1 as [|c s1 IH]; intros s2; simpl; [done|].
  by rewrite IH, (IH (String c "")), str_app_assoc.
Qed.

Lemma rev_cons c s : String.rev (String c s) = String.rev s +:+ String c "".
Proof. unfold String.rev at 1. simpl. apply rev_app_eq. Qed.

Lemma rev_app_distr s1 s2 :
  String.rev (s1 +:+ s2) = String.rev s2 +:+ String.rev s1.
Proof.
  induction s1 as [|c s1 IH].
  - change ("" +:+ s2) with s2. by rewrite str_app_nil_r.
  - by rewrite str_app_cons, !rev_cons, IH, str_app_assoc.
Qed.

Lemma rev_involutive s : String.rev (String.rev s) = s.
Proof.
  induction s as [|c s IH]; [done|].
  by rewrite rev_cons, rev_app_distr, IH.
Qed.

Lemma lstrip_clean s : starts_clean s = true → PyStr.lstrip s = s.
Proof.
  destruct s as [|c s]; simpl; [done|].
  by destruct (PyStr.is_space c).
Qed.

Lemma lstrip_starts_clean s : starts_clean (PyStr.lstrip s) = true.
Proof.
  induction s as [|c s IH]; simpl; [done|].
  destruct (PyStr.is_space c) eqn:Hc; [done|]. simpl. by rewrite Hc.
Qed.

Lemma starts_clean_app s1 s2 :
  s1 ≠ "" → starts_clean (s1 +:+ s2) = starts_clean s1.
Proof. by destruct s1. Qed.

Lemma rev_nonempty c s : String.rev (String c s) ≠ "".
Proof. rewrite rev_cons. by destruct (String.rev s). Qed.

(** Stripping on the left keeps a clean end clean. *)
Lemma lstrip_ends_clean s :
  starts_clean (String.rev s) = true →
  starts_clean (String.rev (PyStr.lstrip s)) = true.
Proof.
  induction s as [|c s IH]; simpl; [done|].
  destruct (PyStr.is_space c) eqn:Hc; [|done].
  intros Hclean. apply IH. rewrite rev_cons in Hclean.
  destruct s as [|c' s].
  - simpl in Hclean. by rewrite Hc in Hclean.
  - by rewrite starts_clean_app in Hclean by apply rev_nonempty.
Qed.

Lemma strip_idemp s : PyStr.strip (PyStr.strip s) = PyStr.strip s.
Proof.
  unfold PyStr.strip, PyStr.rstrip.
  set (t := PyStr.lstrip s). set (u := PyStr.lstrip (String.rev t)).
  assert (Hu : starts_clean (String.rev u) = true).
  { apply lstrip_ends_clean. rewrite rev_involutive.
    apply lstrip_starts_clean. }
  rewrite (lstrip_clean _ Hu), rev_involutive.
  f_equal. apply lstrip_clean, lstrip_starts_clean.
Qed.

(** The key the loaders compute is its own normal form. *)
Lemma normalize_key_idemp s :
  normalize_key (normalize_key s) = normalize_key s.
Proof.
  unfold normalize_key. by rewrite strip_lower, lower_idemp, strip_idemp.
Qed.

Lemma dict_set_keys {V : Type} (k : string) (v : V) (d : list (string * V)) :
  Dict.keys (Dict.set k v d)
  = if decide (k ∈ Dict.keys d) then Dict.keys d else Dict.keys d ++ [k].
Proof.
  unfold Dict.keys. induction d as [|[k' v'] d IH]; [done|].
  cbn [Dict.set]. destruct (decide (k = k')) as [-> | Hne];
    rewrite !fmap_cons; cbn [fst].
  - rewrite decide_True; [done|left].
  - rewrite IH. destruct (decide (k ∈ d.*1)) as [Hin | Hnin].
    + rewrite decide_True; [done|by right].
    + rewrite decide_False; [done|]. by intros [?|?]%elem_of_cons.
Qed.

Lemma dict_set_wf {V : Type} (k : string) (v : V) (d : list (string * V)) :
  Dict.wf d → Dict.wf (Dict.set k v d).
Proof.
  intros Hwf. change (NoDup (Dict.keys (Dict.set k v d))).
  change (NoDup (Dict.keys d)) in Hwf. rewrite dict_set_keys.
  case_decide; [done|].
  apply NoDup_app. split; [done|]. split; [|apply NoDup_singleton].
  intros k' Hk' ->%list_elem_of_singleton. done.
Qed.

Lemma dict_set_normalized {V : Type} (k : string) (v : V)
    (d : list (string * V)) :
  normalize_key k = k → normalized d → normalized (Dict.set k v d).
Proof.
  unfold normalized. rewrite dict_set_keys. intros Hk Hd.
  case_decide; [done|]. apply Forall_app. split; [done|].
  by apply Forall_singleton.
Qed.

Lemma foldl_option_None {A B : Type} (f : B → A → option A) (l : list B) :
  foldl (λ acc x, acc ≫= f x) None l = None.
Proof. induction l; simpl; done. Qed.

Lemma foldl_option_invariant {A B : Type} (P : A → Prop)
    (f : B → A → option A) (l : list B) (a a' : A) :
  (∀ x a a', P a → f x a = Some a' → P a') →
  P a → foldl (λ acc x, acc ≫= f x) (Some a) l = Some a' → P a'.
Proof.
  intros Hf. revert a. induction l as [|x l IH]; intros a Ha; simpl.
  - by intros [= <-].
  - destruct (f x a) as [a1|] eqn:Hfx.
    + apply IH. by eapply Hf.
    + by rewrite foldl_option_None.
Qed.

(** Both loaders return maps with distinct, normalised keys. *)
Lemma load_reference_from_json_keys json_loads data reference :
  load_reference_from_json json_loads data = Some reference →
  Dict.wf reference ∧ normalized reference.
Proof.
  unfold load_reference_from_json.
  destruct data as [| | | | | |d]; try done.
  destruct (Dict.get "items" d) as [[| | | | |items|]|]; try done.
  apply (foldl_option_invariant (λ m : reference_map, Dict.wf m ∧ normalized m)).
  - intros item m m' [Hwf Hn]. unfold load_reference_item.
    repeat (match goal with
            | |- context [match ?x with _ => _ end] => destruct x
            end; try done);
      intros [= <-]; try done.
    split; [by apply dict_set_wf|].
    apply dict_set_normalized; [apply normalize_key_idemp|done].
  - split; [apply NoDup_nil_2|apply Forall_nil_2].
Qed.

Lemma load_results_from_json_keys data test :
  load_results_from_json data = Some test →
  Dict.wf test ∧ normalized test.
Proof.
  unfold load_results_from_json.
  destruct data as [| | | | |items|]; try done.
  apply (foldl_option_invariant (λ m : test_map, Dict.wf m ∧ normalized m)).
  - intros item m m' [Hwf Hn]. unfold load_results_item.
    repeat (match goal with
            | |- context [match ?x with _ => _ end] => destruct x
            end; try done);
      intros [= <-]; try done;
      (split; [by apply dict_set_wf|];
       apply dict_set_normalized; [apply normalize_key_idemp|done]).
  - split; [apply NoDup_nil_2|apply Forall_nil_2].
Qed.

(** *** The order of the detailed results *)

Lemma filter_fmap_comm {A B : Type} (f : A → B) (P : B → Prop)
    `{∀ y, Decision (P y)} (l : list A) :
  filter P (f <$> l) = f <$> filter (λ x, P (f x)) l.
Proof.
  induction l as [|x l IH]; [done|].
  rewrite fmap_cons, !filter_cons, IH. by case_decide.
Qed.

(** The detailed results follow the ascending order of the input DOIs:
    they record, in that order, the normal forms of some of the keys of the
    two maps. *)
Lemma details_follow_sorted_keys reference test m details :
  calculate_metrics reference test = Some (m, details) →
  ∃ keys, keys `sublist_of` all_input_dois reference test
          ∧ StronglySorted String.le keys ∧ NoDup keys
          ∧ detail_input_doi <$> details = normalize_key <$> keys.
Proof.
  intros Hm.
  destruct (calculate_metrics_total reference test)
    as (m' & details' & Hm' & _ & _ & _ & _ & Hd).
  rewrite Hm in Hm'. injection Hm' as <- <-.
  destruct (foldl_classify_spec (positive_references reference) test
              (all_input_dois reference test) counters_init)
    as (_ & _ & _ & _ & Hkeys).
  cbv zeta in Hkeys. rewrite <- Hd in Hkeys. simpl in Hkeys.
  rewrite filter_fmap_comm in Hkeys.
  eexists. split; [|split; [|split; [|exact Hkeys]]].
  - apply sublist_filter.
  - apply StronglySorted_filter, all_input_dois_sorted.
  - apply NoDup_filter, all_input_dois_NoDup.
Qed.

(** With normalised keys the recorded input DOIs themselves ascend. *)
Lemma details_sorted_normalized reference test m details :
  normalized reference → normalized test →
  calculate_metrics reference test = Some (m, details) →
  StronglySorted String.le (detail_input_doi <$> details)
  ∧ NoDup (detail_input_doi <$> details).
Proof.
  intros Hnr Hnt Hm.
  destruct (calculate_metrics_total reference test)
    as (m' & details' & Hm' & _ & _ & _ & _ & Hd).
  rewrite Hm in Hm'. injection Hm' as <- <-.
  destruct (foldl_classify_spec (positive_references reference) test
              (all_input_dois reference test) counters_init)
    as (_ & _ & _ & _ & Hk).
  cbv zeta in Hk. rewrite <- Hd in Hk. simpl in Hk. rewrite Hk.
  rewrite fmap_fixed_id by by apply all_input_dois_normalized.
  split.
  - apply StronglySorted_filter, all_input_dois_sorted.
  - apply NoDup_filter, all_input_dois_NoDup.
Qed.

(** C10. Two pairs of maps with the same bindings, in whatever insertion
    order, give the same metrics and the same detailed results. The
    detailed results follow the ascending order of the input DOIs (the
    sorted keys of the two maps), and for the maps the two loaders return,
    whose keys are normalised, the recorded [input_doi] column is itself
    ascending and free of duplicates. *)
Theorem calculate_metrics_deterministic
    (reference reference' : reference_map) (test test' : test_map) :
  Dict.wf reference → Dict.wf test →
  reference ≡ₚ reference' → test ≡ₚ test' →
  calculate_metrics reference test = calculate_metrics reference' test'
  ∧ ∃ m details,
      calculate_metrics reference test = Some (m, details)
      ∧ (∃ keys, keys `sublist_of` all_input_dois reference test
                 ∧ StronglySorted String.le keys ∧ NoDup keys
                 ∧ detail_input_doi <$> details = normalize_key <$> keys)
      ∧ (∀ json_loads data_reference data_results,
           load_reference_from_json json_loads data_reference
           = Some reference →
           load_results_from_json data_results = Some test →
           StronglySorted String.le (detail_input_doi <$> details)
           ∧ NoDup (detail_input_doi <$> details)).
Proof.
  intros Hwr Hwt Hr Ht. split.
  - assert (Hpos : positive_references reference
                   ≡ₚ positive_references reference').
    { unfold positive_references. by rewrite Hr. }
    assert (Hkeys : all_input_dois reference test
                    = all_input_dois reference' test').
    { unfold all_input_dois, Dict.keys. by rewrite Hr, Ht. }
    assert (Hfold :
      foldl (classify (positive_references reference) test) counters_init
            (all_input_dois reference test)
      = foldl (classify (positive_references reference') test') counters_init
              (all_input_dois reference' test')).
    { rewrite <- Hkeys. apply foldl_fun_ext. intros acc k.
      apply classify_lookup_ext; intros k'.
      - apply dict_get_perm; [by apply positive_references_wf|done].
      - by apply dict_get_perm. }
    unfold calculate_metrics.
    by rewrite <- Hfold, (Permutation_length Hpos).
  - destruct (calculate_metrics_total reference test)
      as (m & details & Hm & _).
    exists m, details. split; [done|]. split.
    + by eapply details_follow_sorted_keys.
    + intros json_loads data_reference data_results Hlr Hlt.
      apply load_reference_from_json_keys in Hlr as [_ Hnr].
      apply load_results_from_json_keys in Hlt as [_ Hnt].
      by eapply details_sorted_normalized.
Qed.

Lemma calculate_metrics_deterministic_witness :
  calculate_metrics
    [("10.1/a", {["10.1/x"]}); ("10.1/b", ∅)]
    [("10.1/a", Some "10.1/x"); ("10.1/b", Some "10.1/z")]
  = calculate_metrics
      [("10.1/b", ∅); ("10.1/a", {["10.1/x"]})]
      [("10.1/b", Some "10.1/z"); ("10.1/a", Some "10.1/x")]
  ∧ ∃ m details,
      calculate_metrics
        [("10.1/a", {["10.1/x"]}); ("10.1/b", ∅)]
        [("10.1/a", Some "10.1/x"); ("10.1/b", Some "10.1/z")]
      = Some (m, details)
      ∧ (∃ keys,
           keys `sublist_of`
             all_input_dois
               [("10.1/a", {["10.1/x"]}); ("10.1/b", ∅)]
               [("10.1/a", Some "10.1/x"); ("10.1/b", Some "10.1/z")]
           ∧ StronglySorted String.le keys ∧ NoDup keys
           ∧ detail_input_doi <$> details = normalize_key <$> keys)
      ∧ StronglySorted String.le (detail_input_doi <$> details)
      ∧ NoDup (detail_input_doi <$> details).
Proof.
  destruct (calculate_metrics_deterministic
              [("10.1/a", {["10.1/x"]}); ("10.1/b", ∅)]
              [("10.1/b", ∅); ("10.1/a", {["10.1/x"]})]
              [("10.1/a", Some "10.1/x"); ("10.1/b", Some "10.1/z")]
              [("10.1/b", Some "10.1/z"); ("10.1/a", Some "10.1/x")])
    as [Heq (m & details & Hm & Hkeys & Hsorted)].
  - apply (bool_decide_unpack _). vm_compute. exact I.
  - apply (bool_decide_unpack _). vm_compute. exact I.
  - apply perm_swap.
  - apply perm_swap.
  - split; [exact Heq|]. exists m, details.
    split; [exact Hm|]. split; [exact Hkeys|].
    apply (Hsorted example_json_loads
             (PyDict [("items", PyList [
                PyDict [("input", PyStr (doi_document "10.1/a"));
                        ("output", PyList [PyStr "https://doi.org/10.1/X"])];
                PyDict [("input", PyStr (doi_document "10.1/b"));
                        ("output", PyList [])]])])
             (PyList [PyDict [("input_doi", PyStr "10.1/a");
                              ("matched_doi", PyStr "10.1/x");
                              ("confidence", PyStr "0.9000")];
                      PyDict [("input_doi", PyStr "10.1/b");
                              ("matched_doi", PyStr "10.1/Z");
                              ("confidence", PyStr "0.8000")]])).
    + vm_compute. reflexivity.
    + vm_compute. reflexivity.
Defined.

(** Outside the loaders' guarantee: for keys that are not normalised the
    loop follows the order of the keys as given, and the recorded normal
    forms need not ascend. *)
Lemma details_order_for_raw_keys :
  ∃ m details,
    calculate_metrics
      [("B", {["10.1/x"]}); ("a", {["10.1/y"]}); ("b", {["10.1/x"]})] []
    = Some (m, details)
    ∧ detail_input_doi <$> details = ["b"; "a"; "b"]
    ∧ detail_input_doi <$> details
      = normalize_key <$> ["B"; "a"; "b"].
Proof.
  eexists _, _. split; [vm_compute; reflexivity|]. split; reflexivity.
Qed.

(** ** The loaders: keys and reference sets *)

(** C8, evaluated. In an [output] list the three spellings of a DOI
    become the one member ["10.1/abc"]. As the [DOI] of an item's input and
    as the [input_doi] of a result they become three different keys, two of
    which keep their prefix, although the matching driver writes the
    prefix-free ["10.1/ABC"] as [input_doi] for all three. So for an item
    whose DOI is spelled as a URL the reference key and the results key
    differ, and a correct match is scored as one false positive and one
    false negative. *)
Theorem doi_spelling_keys :
  valid_doi_set (PyList [PyStr "https://doi.org/10.1/ABC";
                         PyStr "doi:10.1/ABC"; PyStr "10.1/ABC"])
    = {["10.1/abc"]}
  ∧ load_reference_from_json example_json_loads
      (PyDict [("items", PyList [
         PyDict [("input", PyStr (doi_document "https://doi.org/10.1/ABC"));
                 ("output", PyList [PyStr "https://doi.org/10.1/ABC"])];
         PyDict [("input", PyStr (doi_document "doi:10.1/ABC"));
                 ("output", PyList [PyStr "doi:10.1/ABC"])];
         PyDict [("input", PyStr (doi_document "10.1/ABC"));
                 ("output", PyList [PyStr "10.1/ABC"])]])])
    = Some [("https://doi.org/10.1/abc", {["10.1/abc"]});
            ("doi:10.1/abc", {["10.1/abc"]});
            ("10.1/abc", {["10.1/abc"]})]
  ∧ load_results_from_json
      (PyList [
         PyDict [("input_doi", PyStr "https://doi.org/10.1/ABC");
                 ("matched_doi", PyStr "10.9/Z")];
         PyDict [("input_doi", PyStr "doi:10.1/ABC");
                 ("matched_doi", PyStr "10.9/Z")];
         PyDict [("input_doi", PyStr "10.1/ABC");
                 ("matched_doi", PyStr "10.9/Z")]])
    = Some [("https://doi.org/10.1/abc", Some "10.9/z");
            ("doi:10.1/abc", Some "10.9/z");
            ("10.1/abc", Some "10.9/z")]
  ∧ input_doi_extracted example_py_str_other
      [("DOI", PyStr "https://doi.org/10.1/ABC")] = "10.1/ABC"
  ∧ input_doi_extracted example_py_str_other
      [("DOI", PyStr "doi:10.1/ABC")] = "10.1/ABC"
  ∧ input_doi_extracted example_py_str_other
      [("DOI", PyStr "10.1/ABC")] = "10.1/ABC"
  ∧ ∃ m details,
      file (example_run (mkArgs FormatJson 10) [item_url_doi])
      = JsonFile [mkOutputRecord "10.1/ABC" "10.1/x" "0.9000"]
      ∧ load_reference_from_json example_json_loads
          (PyDict [("items", PyList [item_url_doi])])
        = Some [("https://doi.org/10.1/abc", {["10.1/x"]})]
      ∧ load_results_from_json
          (results_file [mkOutputRecord "10.1/ABC" "10.1/x" "0.9000"])
        = Some [("10.1/abc", Some "10.1/x")]
      ∧ calculate_metrics [("https://doi.org/10.1/abc", {["10.1/x"]})]
                          [("10.1/abc", Some "10.1/x")]
        = Some (m, details)
      ∧ TP m = 0%Z ∧ FP m = 1%Z ∧ FN m = 1%Z.
Proof.
  do 6 (split; [vm_compute; reflexivity|]).
  eexists _, _. do 3 (split; [vm_compute; reflexivity|]).
  split; [vm_compute; reflexivity|]. vm_compute. done.
Qed.

(** ** More on the F-beta score *)

(** X1. [calculate_f_beta] raises its [ValueError] exactly when [beta] is not
    positive and the precision and recall are not both 0: the test for the
    all-zero case comes first and returns 0 for any [beta]. *)
Theorem calculate_f_beta_raises (P R beta : Q) :
  calculate_f_beta P R beta = None
  ↔ (beta <= 0)%Q ∧ ¬ (P == 0 ∧ R == 0)%Q.
Proof.
  unfold calculate_f_beta.
  destruct (Qeq_bool P 0 && Qeq_bool R 0) eqn:Hz.
  - apply andb_true_iff in Hz as [HP%Qeq_bool_iff HR%Qeq_bool_iff].
    split; [done|]. intros [_ Hn]. by destruct Hn.
  - assert (Hnz : ¬ (P == 0 ∧ R == 0)%Q).
    { intros [HP%Qeq_bool_iff HR%Qeq_bool_iff]. by rewrite HP, HR in Hz. }
    destruct (Qle_bool beta 0) eqn:Hb.
    + apply Qle_bool_iff in Hb. done.
    + assert (Hnb : ¬ (beta <= 0)%Q).
      { intros Hle%Qle_bool_iff. by rewrite Hle in Hb. }
      cbv zeta. destruct (Qeq_bool (_ + _) 0);
        (split; [done|intros [Hle _]; by destruct Hnb]).
Qed.





(** ** More on [calculate_metrics] *)

(** Every field of the metrics in terms of the loop's final counters. *)
Lemma calculate_metrics_fields reference test m details :
  calculate_metrics reference test = Some (m, details) →
  let acc := foldl (classify (positive_references reference) test)
                   counters_init (all_input_dois reference test) in
  TP m = tp acc ∧ FP m = fp acc ∧ FN m = fn acc
  ∧ Positive_Predictions m = positive_predictions acc
  ∧ Positive_References m = Z.of_nat (length (positive_references reference))
  ∧ Precision m
    = (if (0 <? Positive_Predictions m)%Z
       then inject_Z (TP m) / inject_Z (Positive_Predictions m) else 0)%Q
  ∧ Recall m
    = (if (0 <? Positive_References m)%Z
       then inject_Z (TP m) / inject_Z (Positive_References m) else 0)%Q
  ∧ calculate_f_beta (Precision m) (Recall m) (1 # 2) = Some (F0_5 m)
  ∧ calculate_f_beta (Precision m) (Recall m) 1 = Some (F1 m)
  ∧ calculate_f_beta (Precision m) (Recall m) (3 # 2) = Some (F1_5 m)
  ∧ details = detailed_results acc.
Proof.
  unfold calculate_metrics. intros Hm. cbv zeta in *.
  set (acc := foldl _ _ _) in *.
  set (P := if (0 <? positive_predictions acc)%Z then _ else _) in *.
  set (R := if (0 <? Z.of_nat _)%Z then _ else _) in *.
  destruct (calculate_f_beta P R (1 # 2)) as [f05|] eqn:H05; [|done].
  destruct (calculate_f_beta P R 1) as [f1|] eqn:H1; [|done].
  destruct (calculate_f_beta P R (3 # 2)) as [f15|] eqn:H15; [|done].
  simpl in Hm. injection Hm as <- <-. simpl. done.
Qed.

(** The counters only grow from 0. *)
Lemma countZ_nonneg f l : (0 <= countZ f l)%Z.
Proof. unfold countZ. lia. Qed.

Lemma countZ_split (f g h : string → bool) (l : list string) :
  (∀ k, (if f k then 1 else 0)%Z
        = ((if g k then 1 else 0) + (if h k then 1 else 0))%Z) →
  countZ f l = (countZ g l + countZ h l)%Z.
Proof.
  intros Hk. induction l as [|k l IH]; [done|].
  rewrite !countZ_cons, IH, Hk. lia.
Qed.


(** X3. Whatever the maps, the number of positive predictions
    the tool reports is TP + FP, so its Precision is TP/(TP+FP), or 0
    when nothing was predicted; the three counts are not negative and
    Precision is between 0 and 1. *)
Theorem precision_over_predictions reference test :
  ∃ m details,
    calculate_metrics reference test = Some (m, details)
    ∧ (0 <= TP m)%Z ∧ (0 <= FP m)%Z ∧ (0 <= FN m)%Z
    ∧ Positive_Predictions m = (TP m + FP m)%Z
    ∧ Precision m
      = (if (0 <? TP m + FP m)%Z
         then inject_Z (TP m) / inject_Z (TP m + FP m) else 0)%Q
    ∧ (0 <= Precision m)%Q ∧ (Precision m <= 1)%Q.
Proof.
  destruct (calculate_metrics_total reference test)
    as (m & details & Hm & _).
  exists m, details. split; [done|].
  destruct (calculate_metrics_fields reference test m details Hm)
    as (Htp & Hfp & Hfn & Hpp & _ & Hprec & _).
  destruct (foldl_classify_spec (positive_references reference) test
              (all_input_dois reference test) counters_init)
    as (Ftp & Ffp & Ffn & Fpp & _).
  cbv zeta in *. simpl in Ftp, Ffp, Ffn, Fpp.
  rewrite <- Htp in Ftp. rewrite <- Hfp in Ffp. rewrite <- Hfn in Ffn.
  rewrite <- Hpp in Fpp.
  set (L := normalize_key <$> all_input_dois reference test) in *.
  assert (H0tp : (0 <= TP m)%Z) by (rewrite Ftp; apply countZ_nonneg).
  assert (H0fp : (0 <= FP m)%Z) by (rewrite Ffp; apply countZ_nonneg).
  assert (H0fn : (0 <= FN m)%Z) by (rewrite Ffn; apply countZ_nonneg).
  assert (Hsum : Positive_Predictions m = (TP m + FP m)%Z).
  { rewrite Fpp, Ftp, Ffp. apply countZ_split. intros k.
    destruct (predicts test k), (in_reference _ k), (hits _ test k); done. }
  do 4 (split; [done|]). rewrite Hsum in Hprec. split; [done|].
  rewrite Hprec. destruct (0 <? TP m + FP m)%Z eqn:Hpos; [|split; lra].
  apply Z.ltb_lt in Hpos.
  assert (Hd : (0 < inject_Z (TP m + FP m))%Q) by (by rewrite <- (Zlt_Qlt 0)).
  split.
  - apply Qle_shift_div_l; [done|]. rewrite Qmult_0_l.
    by rewrite <- (Zle_Qle 0).
  - apply Qle_shift_div_r; [done|]. rewrite Qmult_1_l.
    rewrite <- Zle_Qle. lia.
Qed.

(** What one iteration appends to the detailed results. *)
Lemma classify_detail positive test acc k :
  detailed_results (classify positive test acc k)
  = detailed_results acc
    ++ option_list (detail_of positive test (normalize_key k)).
Proof.
  unfold classify, detail_of, predicts, in_reference, hits.
  set (k' := normalize_key k).
  destruct (str_truthy (mjoin (Dict.get k' test)));
    destruct (optset_truthy (Dict.get k' positive)); simpl;
    [destruct (bool_decide _); simpl|..]; rewrite ?app_nil_r; done.
Qed.

Lemma foldl_classify_details positive test l acc :
  detailed_results (foldl (classify positive test) acc l)
  = detailed_results acc
    ++ omap (detail_of positive test) (normalize_key <$> l).
Proof.
  revert acc. induction l as [|k l IH]; intros acc; cbn [foldl].
  - by rewrite app_nil_r.
  - rewrite IH, classify_detail, fmap_cons, <- app_assoc. f_equal.
    cbn [omap list_omap]. by destruct (detail_of positive test _).
Qed.

Lemma count_status_app s l1 l2 :
  count_status s (l1 ++ l2) = (count_status s l1 + count_status s l2)%Z.
Proof. unfold count_status. rewrite filter_app, length_app. lia. Qed.

Lemma count_status_cons s r l :
  count_status s (r :: l)
  = ((if decide (status r = s) then 1 else 0) + count_status s l)%Z.
Proof.
  unfold count_status. rewrite filter_cons.
  case_decide; simpl; lia.
Qed.

(** The status of the record of a key, if it has one. *)
Lemma detail_of_status positive test k :
  match detail_of positive test k with
  | Some r =>
      detail_input_doi r = k
      ∧ status r = (if predicts test k
                    then if in_reference positive k && hits positive test k
                         then "TP" else "FP"
                    else "FN")
      ∧ predicts test k || in_reference positive k = true
  | None => predicts test k || in_reference positive k = false
  end.
Proof.
  unfold detail_of.
  destruct (predicts test k), (in_reference positive k); simpl; done.
Qed.

(** The records of a list of keys, counted by status, are the keys counted
    by the test of that status. *)
Lemma count_status_details positive test l :
  count_status "TP" (omap (detail_of positive test) l)
  = countZ (λ k, predicts test k && in_reference positive k
                 && hits positive test k) l
  ∧ count_status "FP" (omap (detail_of positive test) l)
    = countZ (λ k, predicts test k
                   && negb (in_reference positive k
                            && hits positive test k)) l
  ∧ count_status "FN" (omap (detail_of positive test) l)
    = countZ (λ k, negb (predicts test k) && in_reference positive k) l
  ∧ Forall (λ r, status r = "TP" ∨ status r = "FP" ∨ status r = "FN")
           (omap (detail_of positive test) l).
Proof.
  induction l as [|k l (IH1 & IH2 & IH3 & IH4)]; [by repeat split|].
  cbn [omap list_omap]. rewrite !countZ_cons, <- IH1, <- IH2, <- IH3.
  pose proof (detail_of_status positive test k) as Hk.
  destruct (detail_of positive test k) as [r|].
  - destruct Hk as (_ & Hs & Hany). rewrite !count_status_cons, Hs.
    destruct (predicts test k), (in_reference positive k),
      (hits positive test k); simpl in *; try done;
      repeat (case_decide; try done);
      (split; [done|split; [done|split; [done|]]]);
      (constructor; [rewrite Hs; auto|done]).
  - destruct (predicts test k), (in_reference positive k); simpl in *;
      try done.
Qed.

(** X4. The detailed results agree with the summary: whatever the maps, the
    records with status TP, FP and FN are as many as the counts TP, FP and
    FN, no record has another status, and the records are TP + FP + FN in
    all. *)
Theorem details_match_counts reference test :
  ∃ m details,
    calculate_metrics reference test = Some (m, details)
    ∧ count_status "TP" details = TP m
    ∧ count_status "FP" details = FP m
    ∧ count_status "FN" details = FN m
    ∧ Forall (λ r, status r = "TP" ∨ status r = "FP" ∨ status r = "FN")
             details
    ∧ Z.of_nat (length details) = (TP m + FP m + FN m)%Z.
Proof.
  destruct (calculate_metrics_total reference test)
    as (m & details & Hm & _).
  exists m, details. split; [done|].
  destruct (calculate_metrics_fields reference test m details Hm)
    as (Htp & Hfp & Hfn & _ & _ & _ & _ & _ & _ & _ & Hd).
  destruct (foldl_classify_spec (positive_references reference) test
              (all_input_dois reference test) counters_init)
    as (Ftp & Ffp & Ffn & _).
  cbv zeta in *. simpl in Ftp, Ffp, Ffn.
  rewrite foldl_classify_details in Hd. simpl in Hd.
  destruct (count_status_details (positive_references reference) test
              (normalize_key <$> all_input_dois reference test))
    as (C1 & C2 & C3 & C4).
  rewrite <- Hd in C1, C2, C3, C4.
  rewrite Htp, Hfp, Hfn, Ftp, Ffp, Ffn.
  do 4 (split; [done|]).
  rewrite <- C1, <- C2, <- C3. clear -C4.
  induction C4 as [|r l Hr _ IH]; [done|].
  rewrite !count_status_cons. cbn [length]. rewrite Nat2Z.inj_succ, IH.
  destruct Hr as [Hr|[Hr|Hr]]; rewrite Hr;
    repeat (case_decide; try done); lia.
Qed.

(** X5. The detailed results are the records of the sorted input DOIs, one for
    each key that has a prediction or a reference set. In particular an
    input with a non-empty reference set and no prediction is reported as
    a false negative, with its reference DOIs joined in ascending order. *)
Theorem details_of_sorted_keys reference test :
  Dict.wf reference →
  ∃ m details,
    calculate_metrics reference test = Some (m, details)
    ∧ details
      = omap (detail_of (positive_references reference) test)
             (normalize_key <$> all_input_dois reference test)
    ∧ ∀ k s, (k, s) ∈ reference → normalize_key k = k → s ≠ ∅ →
             predicts test k = false →
             DetailRecord k "" (PyStr.join " | " (sorted (elements s))) "FN"
             ∈ details.
Proof.
  intros Hwf.
  destruct (calculate_metrics_total reference test)
    as (m & details & Hm & _).
  exists m, details. split; [done|].
  destruct (calculate_metrics_fields reference test m details Hm)
    as (_ & _ & _ & _ & _ & _ & _ & _ & _ & _ & Hd).
  cbv zeta in Hd. rewrite foldl_classify_details in Hd. simpl in Hd.
  split; [done|]. intros k s Hks Hk Hs Hpred. rewrite Hd.
  apply list_elem_of_omap. exists k. split.
  - rewrite <- Hk. apply list_elem_of_fmap_2.
    apply all_input_dois_elem. left.
    unfold Dict.keys. apply list_elem_of_fmap. by exists (k, s).
  - assert (Hget : Dict.get k (positive_references reference) = Some s).
    { apply dict_elem_get; [by apply positive_references_wf|].
      apply list_elem_of_filter. split; [|done].
      unfold set_truthy. simpl. by rewrite bool_decide_eq_false_2. }
    unfold detail_of, in_reference. rewrite Hpred, Hget. simpl.
    assert (Ht : set_truthy s = true).
    { unfold set_truthy. by rewrite bool_decide_eq_false_2. }
    rewrite Ht. f_equal. f_equal.
    unfold predicts in Hpred.
    by destruct (mjoin (Dict.get k test)) as [[|]|].
Qed.

Lemma details_of_sorted_keys_witness :
  ∃ m details,
    calculate_metrics
      [("10.1/a", {["10.1/x"]}); ("10.1/c", {["10.1/z"; "10.1/y"]})]
      [("10.1/a", Some "10.1/x"); ("10.1/c", None)]
    = Some (m, details)
    ∧ details
      = omap (detail_of
                (positive_references
                   [("10.1/a", {["10.1/x"]});
                    ("10.1/c", {["10.1/z"; "10.1/y"]})])
                [("10.1/a", Some "10.1/x"); ("10.1/c", None)])
             (normalize_key
                <$> all_input_dois
                      [("10.1/a", {["10.1/x"]});
                       ("10.1/c", {["10.1/z"; "10.1/y"]})]
                      [("10.1/a", Some "10.1/x"); ("10.1/c", None)])
    ∧ DetailRecord "10.1/c" "" "10.1/y | 10.1/z" "FN" ∈ details.
Proof.
  destruct (details_of_sorted_keys
              [("10.1/a", {["10.1/x"]}); ("10.1/c", {["10.1/z"; "10.1/y"]})]
              [("10.1/a", Some "10.1/x"); ("10.1/c", None)])
    as (m & details & Hm & Hd & Hfn).
  - apply (bool_decide_unpack _). vm_compute. exact I.
  - exists m, details. split; [exact Hm|]. split; [exact Hd|].
    assert (Hj : PyStr.join " | "
                   (sorted (elements ({["10.1/z"; "10.1/y"]} : gset string)))
                 = "10.1/y | 10.1/z") by (vm_compute; reflexivity).
    rewrite <- Hj.
    apply (Hfn "10.1/c" {["10.1/z"; "10.1/y"]}).
    + right. left.
    + reflexivity.
    + apply (bool_decide_unpack _). vm_compute. exact I.
    + reflexivity.
Defined.



(** ** More on the loaders *)

Lemma dict_get_set_eq {V : Type} (k : string) (v : V) (d : list (string * V)) :
  Dict.get k (Dict.set k v d) = Some v.
Proof.
  induction d as [|[k' v'] d IH]; simpl.
  - by rewrite decide_True.
  - destruct (decide (k = k')) as [->|Hne]; simpl.
    + by rewrite decide_True.
    + by rewrite decide_False.
Qed.

Lemma dict_get_set_ne {V : Type} (k k' : string) (v : V)
    (d : list (string * V)) :
  k' ≠ k → Dict.get k' (Dict.set k v d) = Dict.get k' d.
Proof.
  intros Hne. induction d as [|[k0 v0] d IH]; simpl.
  - by rewrite decide_False.
  - destruct (decide (k = k0)) as [->|Hne0]; simpl.
    + by rewrite !decide_False.
    + by rewrite IH.
Qed.

Lemma dict_set_elem {V : Type} (k : string) (v : V) (d : list (string * V))
    (kv : string * V) :
  kv ∈ Dict.set k v d → kv = (k, v) ∨ kv ∈ d.
Proof.
  induction d as [|[k0 v0] d IH]; simpl.
  - intros ->%list_elem_of_singleton. by left.
  - destruct (decide (k = k0)) as [->|Hne].
    + intros [->|?]%elem_of_cons; [by left|right; by right].
    + intros [->|Hin]%elem_of_cons; [right; left|].
      destruct (IH Hin) as [?|?]; [by left|right; by right].
Qed.

Lemma lower_nonempty s : PyStr.nonempty (PyStr.lower s) = PyStr.nonempty s.
Proof. by destruct s. Qed.

Lemma nonempty_ne s : PyStr.nonempty s = true ↔ s ≠ "".
Proof. destruct s; simpl; split; done. Qed.

(** The members of a reference set are normalised, non-empty DOIs taken
    from the strings of the [output] list. *)
Lemma valid_doi_set_members (related : pyval) (m : string) :
  m ∈ valid_doi_set related →
  m ≠ "" ∧ normalize_key m = m
  ∧ ∃ l s, related = PyList l ∧ PyStr s ∈ l
           ∧ m = PyStr.lower (strip_doi_prefixes s).
Proof.
  unfold valid_doi_set. destruct related as [| | | | |l|];
    try (intros H; by apply not_elem_of_empty in H).
  intros Hm.
  assert (Hgen : ∀ (acc : gset string),
    m ∈ foldl (λ (acc : gset string) doi_url,
                 match doi_url with
                 | PyStr s =>
                     let doi_path := strip_doi_prefixes s in
                     if PyStr.nonempty s && PyStr.nonempty doi_path
                     then acc ∪ {[ PyStr.lower doi_path ]}
                     else acc
                 | _ => acc
                 end) acc l →
    m ∈ acc ∨ (m ≠ "" ∧ normalize_key m = m
               ∧ ∃ s, PyStr s ∈ l ∧ m = PyStr.lower (strip_doi_prefixes s))).
  { clear Hm. induction l as [|x l IH]; intros acc; simpl; [by left|].
    intros [Hacc | (Hne & Hnorm & s & Hs & ->)]%IH.
    - destruct x as [| | | |s| |]; try by left.
      destruct (PyStr.nonempty s && PyStr.nonempty (strip_doi_prefixes s))
        eqn:Hok; [|by left].
      apply elem_of_union in Hacc as [?| ->%elem_of_singleton]; [by left|].
      right. apply andb_true_iff in Hok as [_ Hok]. split; [|split].
      + apply nonempty_ne. by rewrite lower_nonempty.
      + unfold strip_doi_prefixes. apply normalize_key_idemp.
      + exists s. split; [left|done].
    - right. split; [done|]. split; [done|]. exists s. split; [by right|done]. }
  destruct (Hgen ∅ Hm) as [H|(? & ? & s & ? & ?)].
  - by apply not_elem_of_empty in H.
  - split; [done|]. split; [done|]. by exists l, s.
Qed.

(** X7. The maps the loaders return. The reference map has distinct,
    non-empty, normalised keys and sets of non-empty, normalised DOIs; the
    results map has distinct, normalised keys and predictions that are
    [None] or normalised. *)
Theorem loaded_maps_normal_forms (json_loads : string → option pyval)
    (data_reference data_results : pyval)
    (reference : reference_map) (test : test_map) :
  load_reference_from_json json_loads data_reference = Some reference →
  load_results_from_json data_results = Some test →
  Dict.wf reference
  ∧ (∀ k s, (k, s) ∈ reference →
       k ≠ "" ∧ normalize_key k = k
       ∧ ∀ m, m ∈ s → m ≠ "" ∧ normalize_key m = m)
  ∧ Dict.wf test
  ∧ (∀ k v, (k, v) ∈ test →
       normalize_key k = k ∧ ∀ p, v = Some p → normalize_key p = p).
Proof.
  intros Hr Ht.
  destruct (load_reference_from_json_keys _ _ _ Hr) as [Hwr _].
  destruct (load_results_from_json_keys _ _ Ht) as [Hwt _].
  split; [done|]. split; [|split; [done|]].
  - revert Hr. unfold load_reference_from_json.
    destruct data_reference as [| | | | | |d]; try done.
    destruct (Dict.get "items" d) as [[| | | | |items|]|]; try done.
    apply (foldl_option_invariant
             (λ m : reference_map, ∀ k s, (k, s) ∈ m →
                k ≠ "" ∧ normalize_key k = k
                ∧ ∀ x, x ∈ s → x ≠ "" ∧ normalize_key x = x)).
    + intros item m m' Hinv. unfold load_reference_item.
      repeat (match goal with
              | |- context [match ?x with _ => _ end] => destruct x eqn:?
              end; try done);
        intros [= <-]; try done.
      intros key set [[= -> ->]|Hin]%dict_set_elem; [|by apply Hinv].
      split; [by apply nonempty_ne|]. split; [apply normalize_key_idemp|].
      intros x Hx. apply valid_doi_set_members in Hx as (? & ? & _). done.
    + intros k s Hin. by apply elem_of_nil in Hin.
  - revert Ht. unfold load_results_from_json.
    destruct data_results as [| | | | |items|]; try done.
    apply (foldl_option_invariant
             (λ m : test_map, ∀ k v, (k, v) ∈ m →
                normalize_key k = k
                ∧ ∀ p, v = Some p → normalize_key p = p)).
    + intros item m m' Hinv. unfold load_results_item.
      repeat (match goal with
              | |- context [match ?x with _ => _ end] => destruct x eqn:?
              end; try done);
        intros [= <-]; try done;
        (intros key val [[= -> ->]|Hin]%dict_set_elem; [|by apply Hinv]);
        (split; [apply normalize_key_idemp|]);
        intros p [= <-]; apply normalize_key_idemp.
    + intros k v Hin. by apply elem_of_nil in Hin.
Qed.

Lemma loaded_maps_normal_forms_witness :
  Dict.wf [("10.1/a", ({["10.1/x"]} : gset string)); ("10.1/b", ∅)]
  ∧ (∀ k s, (k, s) ∈ [("10.1/a", ({["10.1/x"]} : gset string));
                      ("10.1/b", ∅)] →
       k ≠ "" ∧ normalize_key k = k
       ∧ ∀ m, m ∈ s → m ≠ "" ∧ normalize_key m = m)
  ∧ Dict.wf [("10.1/a", Some "10.1/x"); ("10.1/b", Some "10.1/z")]
  ∧ (∀ k v, (k, v) ∈ [("10.1/a", Some "10.1/x"); ("10.1/b", Some "10.1/z")] →
       normalize_key k = k ∧ ∀ p, v = Some p → normalize_key p = p).
Proof.
  apply (loaded_maps_normal_forms example_json_loads
           (PyDict [("items", PyList [
              PyDict [("input", PyStr (doi_document "10.1/a"));
                      ("output", PyList [PyStr "https://doi.org/10.1/X"])];
              PyDict [("input", PyStr (doi_document "10.1/b"));
                      ("output", PyList [])]])])
           (PyList [PyDict [("input_doi", PyStr "10.1/a");
                            ("matched_doi", PyStr "10.1/x");
                            ("confidence", PyStr "0.9000")];
                    PyDict [("input_doi", PyStr "10.1/b");
                            ("matched_doi", PyStr "10.1/Z");
                            ("confidence", PyStr "0.8000")]])).
  - vm_compute. reflexivity.
  - vm_compute. reflexivity.
Defined.

Lemma load_reference_items json_loads d items :
  Dict.get "items" d = Some (PyList items) →
  load_reference_from_json json_loads (PyDict d)
  = foldl (λ acc item, acc ≫= load_reference_item json_loads item)
          (Some []) items.
Proof. intros Hd. unfold load_reference_from_json. by rewrite Hd. Qed.

(** X8. In the reference loader one item that is not an object makes the whole
    load fail, wherever it stands, while an item whose input is not JSON,
    or is a JSON object without a DOI, is only skipped: the result is that
    of the file without the item. *)
Theorem load_reference_skips_or_fails (json_loads : string → option pyval)
    (d : list (string * pyval)) (items1 items2 : list pyval) (item : pyval) :
  Dict.get "items" d = Some (PyList (items1 ++ item :: items2)) →
  (is_dict item = false →
   load_reference_from_json json_loads (PyDict d) = None)
  ∧ (∀ dd s,
       item = PyDict dd →
       py_get_default "input" (PyStr "{}") dd = PyStr s →
       json_loads s = None
       ∨ (∃ record, json_loads s = Some (PyDict record)
                    ∧ truthy (py_get "DOI" record) = false) →
       load_reference_from_json json_loads (PyDict d)
       = load_reference_from_json json_loads
           (PyDict [("items", PyList (items1 ++ items2))])).
Proof.
  intros Hd. rewrite (load_reference_items _ _ _ Hd).
  rewrite foldl_app. cbn [foldl].
  set (acc := foldl _ (Some []) items1). split.
  - intros Hnd.
    assert (Hstep : acc ≫= load_reference_item json_loads item = None).
    { destruct acc as [m|]; [|done]. simpl. by destruct item. }
    rewrite Hstep. apply foldl_option_None.
  - intros dd s -> Hin Hskip.
    rewrite (load_reference_items _ [("items", PyList (items1 ++ items2))]
               (items1 ++ items2)) by done.
    rewrite foldl_app. fold acc. f_equal.
    destruct acc as [m|]; [|done]. simpl. rewrite Hin.
    destruct Hskip as [-> | (record & -> & Hdoi)]; [done|].
    by rewrite Hdoi.
Qed.

Lemma load_reference_skips_or_fails_witness :
  load_reference_from_json example_json_loads
    (PyDict [("items", PyList ([item_a] ++ PyStr "x" :: [item_b]))]) = None
  ∧ load_reference_from_json example_json_loads
      (PyDict [("items", PyList ([item_a] ++ item_bad_json :: [item_b]))])
    = load_reference_from_json example_json_loads
        (PyDict [("items", PyList ([item_a] ++ [item_b]))]).
Proof.
  destruct (load_reference_skips_or_fails example_json_loads
              [("items", PyList ([item_a] ++ PyStr "x" :: [item_b]))]
              [item_a] [item_b] (PyStr "x") eq_refl) as [Hfail _].
  destruct (load_reference_skips_or_fails example_json_loads
              [("items", PyList ([item_a] ++ item_bad_json :: [item_b]))]
              [item_a] [item_b] item_bad_json eq_refl) as [_ Hskip].
  split.
  - apply Hfail. reflexivity.
  - apply (Hskip [("input", PyStr "not json")] "not json").
    + reflexivity.
    + reflexivity.
    + left. reflexivity.
Defined.

(** X9. When a DOI occurs in several items of the reference file, the last one
    decides: after one more item the map binds the item's normalised DOI to
    the set of its own [output] list, and every other key is bound as
    before. *)
Theorem load_reference_last_item_wins (json_loads : string → option pyval)
    (items : list pyval) (dd record : list (string * pyval))
    (s doi : string) (m0 : reference_map) :
  load_reference_from_json json_loads (PyDict [("items", PyList items)])
  = Some m0 →
  py_get_default "input" (PyStr "{}") dd = PyStr s →
  json_loads s = Some (PyDict record) →
  py_get "DOI" record = PyStr doi →
  normalize_key doi ≠ "" →
  ∃ m,
    load_reference_from_json json_loads
      (PyDict [("items", PyList (items ++ [PyDict dd]))]) = Some m
    ∧ Dict.get (normalize_key doi) m
      = Some (valid_doi_set (py_get_default "output" (PyList []) dd))
    ∧ ∀ k, k ≠ normalize_key doi → Dict.get k m = Dict.get k m0.
Proof.
  intros Hm0 Hin Hload Hdoi Hne.
  rewrite (load_reference_items _ [("items", PyList items)] items) in Hm0
    by done.
  rewrite (load_reference_items _ [("items", PyList (items ++ [PyDict dd]))]
             (items ++ [PyDict dd])) by done.
  rewrite foldl_app, Hm0. cbn [foldl mbind option_bind].
  unfold load_reference_item. rewrite Hin, Hload, Hdoi.
  assert (Hdoi_ne : doi ≠ "") by (by intros ->).
  apply nonempty_ne in Hdoi_ne. apply nonempty_ne in Hne.
  cbn [truthy]. rewrite Hdoi_ne, Hne. cbn [negb].
  eexists. split; [reflexivity|]. split.
  - apply dict_get_set_eq.
  - intros k Hk. by apply dict_get_set_ne.
Qed.

Lemma load_reference_last_item_wins_witness :
  ∃ m,
    load_reference_from_json example_json_loads
      (PyDict [("items", PyList ([item_url_doi; item_a]
                                 ++ [PyDict [("input", PyStr (doi_document
                                                "https://doi.org/10.1/ABC"));
                                             ("output",
                                              PyList [PyStr "doi:10.1/Q"])]]))])
    = Some m
    ∧ Dict.get (normalize_key "https://doi.org/10.1/ABC") m
      = Some (valid_doi_set
                (py_get_default "output" (PyList [])
                   [("input", PyStr (doi_document "https://doi.org/10.1/ABC"));
                    ("output", PyList [PyStr "doi:10.1/Q"])]))
    ∧ ∀ k, k ≠ normalize_key "https://doi.org/10.1/ABC" →
           Dict.get k m
           = Dict.get k [("https://doi.org/10.1/abc",
                          ({["10.1/x"]} : gset string));
                         ("10.1/a", ∅)].
Proof.
  apply (load_reference_last_item_wins example_json_loads
           [item_url_doi; item_a]
           [("input", PyStr (doi_document "https://doi.org/10.1/ABC"));
            ("output", PyList [PyStr "doi:10.1/Q"])]
           [("DOI", PyStr "https://doi.org/10.1/ABC")]
           (doi_document "https://doi.org/10.1/ABC")
           "https://doi.org/10.1/ABC").
  - vm_compute. reflexivity.
  - reflexivity.
  - reflexivity.
  - reflexivity.
  - vm_compute. discriminate.
Defined.

(** ** From the matching driver to the evaluation tool *)

Lemma dict_set_keys_elem {V : Type} (k k0 : string) (v : V)
    (d : list (string * V)) :
  k ∈ Dict.keys (Dict.set k0 v d) ↔ k = k0 ∨ k ∈ Dict.keys d.
Proof.
  rewrite dict_set_keys. case_decide as Hin.
  - split; [by right|]. by intros [->|?].
  - rewrite elem_of_app, list_elem_of_singleton. tauto.
Qed.

(** What the results loader does with one record of the driver. *)
Lemma load_results_item_record (r : OutputRecord) (acc : test_map) :
  load_results_item
    (PyDict [("input_doi", PyStr (input_doi r));
             ("matched_doi", PyStr (matched_doi r));
             ("confidence", PyStr (confidence r))]) acc
  = Some (if PyStr.nonempty (input_doi r)
          then Dict.set (normalize_key (input_doi r))
                 (if PyStr.nonempty (matched_doi r)
                  then Some (normalize_key (matched_doi r)) else None) acc
          else acc).
Proof.
  unfold load_results_item, py_get. simpl.
  destruct (PyStr.nonempty (input_doi r)); simpl; [|done].
  by destruct (PyStr.nonempty (matched_doi r)).
Qed.

(** X10. The evaluation tool can always load what the driver wrote: the load
    never fails, its keys are exactly the normalised input DOIs of the
    records that have one (a record with an empty [input_doi] is left
    out), and every prediction comes from a record with that input DOI,
    [None] standing for an empty [matched_doi]. *)
Theorem driver_output_loads (records : list OutputRecord) :
  ∃ test,
    load_results_from_json (results_file records) = Some test
    ∧ Dict.wf test
    ∧ (∀ k, k ∈ Dict.keys test
            ↔ ∃ r, r ∈ records ∧ input_doi r ≠ ""
                   ∧ k = normalize_key (input_doi r))
    ∧ (∀ k v, Dict.get k test = Some v →
         ∃ r, r ∈ records ∧ input_doi r ≠ ""
              ∧ k = normalize_key (input_doi r)
              ∧ v = if PyStr.nonempty (matched_doi r)
                    then Some (normalize_key (matched_doi r)) else None).
Proof.
  unfold load_results_from_json, results_file.
  assert (Hgen : ∀ acc : test_map,
    ∃ test,
      foldl (λ acc item, acc ≫= load_results_item item) (Some acc)
        ((λ r, PyDict [("input_doi", PyStr (input_doi r));
                       ("matched_doi", PyStr (matched_doi r));
                       ("confidence", PyStr (confidence r))]) <$> records)
      = Some test
      ∧ (Dict.wf acc → Dict.wf test)
      ∧ (∀ k, k ∈ Dict.keys test
              ↔ k ∈ Dict.keys acc
                ∨ ∃ r, r ∈ records ∧ input_doi r ≠ ""
                       ∧ k = normalize_key (input_doi r))
      ∧ (∀ k v, Dict.get k test = Some v →
           Dict.get k acc = Some v
           ∨ ∃ r, r ∈ records ∧ input_doi r ≠ ""
                  ∧ k = normalize_key (input_doi r)
                  ∧ v = if PyStr.nonempty (matched_doi r)
                        then Some (normalize_key (matched_doi r))
                        else None)).
  { induction records as [|r records IH]; intros acc.
    - exists acc. simpl. split; [done|]. split; [done|]. split.
      + intros k. split; [by left|]. intros [?|(r & Hr & _)]; [done|].
        by apply elem_of_nil in Hr.
      + intros k v ?. by left.
    - rewrite fmap_cons. cbn [foldl mbind option_bind].
      rewrite load_results_item_record.
      destruct (PyStr.nonempty (input_doi r)) eqn:Hin.
      + destruct (IH (Dict.set (normalize_key (input_doi r))
                        (if PyStr.nonempty (matched_doi r)
                         then Some (normalize_key (matched_doi r))
                         else None) acc))
          as (test & Ht & Hwf & Hkeys & Hvals).
        exists test. split; [done|]. split; [|split].
        * intros Hacc. by apply Hwf, dict_set_wf.
        * intros k. rewrite Hkeys, dict_set_keys_elem. split.
          -- intros [[->|?]|(r' & Hr' & Hne & ->)].
             ++ right. exists r. split; [left|].
                split; [by apply nonempty_ne|done].
             ++ by left.
             ++ right. exists r'. split; [by right|done].
          -- intros [?|(r' & [->|Hr']%elem_of_cons & Hne & ->)].
             ++ left. by right.
             ++ left. by left.
             ++ right. by exists r'.
        * intros k v Hget. destruct (Hvals k v Hget) as [Hset|(r' & ? & ?)].
          -- destruct (decide (k = normalize_key (input_doi r))) as [->|Hk].
             ++ rewrite dict_get_set_eq in Hset. injection Hset as <-.
                right. exists r. split; [left|].
                split; [by apply nonempty_ne|done].
             ++ rewrite dict_get_set_ne in Hset by done. by left.
          -- right. exists r'. split; [by right|done].
      + destruct (IH acc) as (test & Ht & Hwf & Hkeys & Hvals).
        exists test. split; [done|]. split; [done|]. split.
        * intros k. rewrite Hkeys. split.
          -- intros [?|(r' & Hr' & ?)]; [by left|]. right. exists r'.
             split; [by right|done].
          -- intros [?|(r' & [->|Hr']%elem_of_cons & Hne & ->)];
               [by left| |right; by exists r'].
             apply nonempty_ne in Hne. by rewrite Hne in Hin.
        * intros k v Hget. destruct (Hvals k v Hget) as [?|(r' & ? & ?)];
            [by left|]. right. exists r'. split; [by right|done]. }
  destruct (Hgen []) as (test & Ht & Hwf & Hkeys & Hvals).
  exists test. split; [done|]. split; [apply Hwf, NoDup_nil_2|]. split.
  - intros k. rewrite Hkeys. split; [|by right].
    intros [Hnil|?]; [|done]. by apply elem_of_nil in Hnil.
  - intros k v Hget. by destruct (Hvals k v Hget) as [?|?].
Qed.

(** ** Records the results loader cannot read *)

(** Whether one record makes the loop of [load_results_from_json] raise does
    not depend on the records before it. *)
Lemma load_results_item_raises (item : pyval) (acc : test_map) :
  load_results_item item acc = None
  ↔ is_dict item = false
    ∨ ∃ d, item = PyDict d
           ∧ truthy (py_get "input_doi" d) = true
           ∧ (is_str (py_get "input_doi" d) = false
              ∨ truthy (py_get "matched_doi" d) = true
                ∧ is_str (py_get "matched_doi" d) = false).
Proof.
  unfold load_results_item. split.
  - destruct item as [| | | | | |d]; try (by left). intros H. right.
    exists d. split; [done|].
    destruct (truthy (py_get "input_doi" d)) eqn:Hk; [|done].
    split; [done|].
    destruct (py_get "input_doi" d) as [| | | |k| |]; try (by left).
    right. destruct (truthy (py_get "matched_doi" d)) eqn:Hv; [|done].
    split; [done|]. by destruct (py_get "matched_doi" d).
  - intros [Hd | (d & -> & Hk & Hbad)]; [by destruct item|].
    rewrite Hk. simpl.
    destruct (py_get "input_doi" d) as [| | | |k| |]; try done.
    destruct Hbad as [? | [Hv Hs]]; [done|]. rewrite Hv. simpl.
    by destruct (py_get "matched_doi" d).
Qed.

(** X11. The results loader is all or nothing. It returns [None] exactly when
    the file is not a list or holds, anywhere, a record that is not an
    object, or whose [input_doi] is set but is not a string, or whose
    [input_doi] is a non-empty string while its [matched_doi] is set but is
    not a string. A record without [input_doi] never makes it fail. *)
Theorem results_loader_all_or_nothing (data : pyval) :
  load_results_from_json data = None
  ↔ ∀ items, data = PyList items →
      ∃ item, item ∈ items
        ∧ (is_dict item = false
           ∨ ∃ d, item = PyDict d
                  ∧ truthy (py_get "input_doi" d) = true
                  ∧ (is_str (py_get "input_doi" d) = false
                     ∨ truthy (py_get "matched_doi" d) = true
                       ∧ is_str (py_get "matched_doi" d) = false)).
Proof.
  assert (Hfold : ∀ items (acc : test_map),
    foldl (λ acc item, acc ≫= load_results_item item) (Some acc) items = None
    ↔ ∃ item, item ∈ items ∧ load_results_item item [] = None).
  { induction items as [|x items IH]; intros acc; cbn [foldl].
    - split; [done|]. by intros (item & Hin%elem_of_nil & _).
    - cbn [mbind option_bind].
      destruct (load_results_item x acc) as [acc'|] eqn:Hx.
      + rewrite IH. split.
        * intros (item & Hin & Hbad). exists item. split; [|done].
          by apply list_elem_of_further.
        * intros (item & [-> | Hin]%elem_of_cons & Hbad).
          -- apply (load_results_item_raises _ []) in Hbad.
             apply (load_results_item_raises _ acc) in Hbad. congruence.
          -- by exists item.
      + rewrite foldl_option_None. split; [|done]. intros _.
        exists x. split; [apply list_elem_of_here|].
        apply (load_results_item_raises _ acc) in Hx.
        by apply (load_results_item_raises _ []).  }
  destruct data as [| | | | |items|];
    try (split; [by intros _ ? [=]|done]).
  unfold load_results_from_json. rewrite Hfold. split.
  - intros (item & Hin & Hbad) items' [= <-]. exists item.
    split; [done|]. by apply (load_results_item_raises _ []).
  - intros H. destruct (H items eq_refl) as (item & Hin & Hbad).
    exists item. split; [done|]. by apply (load_results_item_raises _ []).
Qed.

(** ** The item loop of [process_match_items] *)

Section DriverProperties.

Variable urlparse : string → option (string * string).
Variable json_loads : string → option pyval.
Variable py_str_other : pyval → string.
Variable strategy_match : nat → string → option pyval.
Variable csv_writerow_ok : nat → OutputRecord → bool.
Variable json_dump_ok : list OutputRecord → bool.
Variable args : Args.

Abbreviation process_item_ :=
  (process_item urlparse json_loads py_str_other strategy_match).
Abbreviation finish_item_ := (finish_item csv_writerow_ok args).
Abbreviation item_loop_ :=
  (item_loop urlparse json_loads py_str_other strategy_match
             csv_writerow_ok args).
Abbreviation process_match_items_ :=
  (process_match_items urlparse json_loads py_str_other strategy_match
                       csv_writerow_ok json_dump_ok args).

Abbreviation all_fail_ :=
  (all_fail urlparse json_loads py_str_other strategy_match).

(** A failed [try] block leaves no record and no match behind. *)
Lemma process_item_failed i d :
  item_processed_successfully (process_item_ i d) = false →
  process_item_ i d = item_failed.
Proof.
  unfold process_item, match_and_record.
  repeat (match goal with
          | |- context [match ?x with _ => _ end] => destruct x
          | |- context [if ?x then _ else _] => destruct x
          end; simpl; try done).
Qed.

Lemma item_loop_app i l1 l2 st :
  processing_halted_by_breaker st = false →
  item_loop_ i (l1 ++ l2) st
  = let st1 := item_loop_ i l1 st in
    if processing_halted_by_breaker st1 then st1
    else item_loop_ (i + length l1) l2 st1.
Proof.
  revert i st. induction l1 as [|item l1 IH]; intros i st Hst; simpl.
  - rewrite Hst. by rewrite Nat.add_0_r.
  - replace (i + S (length l1))%nat with (S i + length l1)%nat by lia.
    destruct item; try by apply IH.
    destruct (processing_halted_by_breaker (finish_item_ i _ st)) eqn:Hh.
    + by rewrite Hh.
    + by apply IH.
Qed.

(** The [finally] block after a failed [try] block. *)
Lemma finish_item_failure i r st :
  item_processed_successfully r = false →
  finish_item_ i r st
  = mkLoop (output_writer st) (processed_items st + 1)
           (matched_items st + (if matched r then 1 else 0))
           (items_with_errors st + 1)
           (consecutive_item_failures st + 1)
           (processing_halted_by_breaker st
            || breaker_tripped args (consecutive_item_failures st + 1)).
Proof.
  intros Hr. unfold finish_item. rewrite Hr. cbn [consecutive_item_failures].
  destruct (breaker_tripped args _); simpl.
  - by rewrite orb_true_r.
  - by rewrite orb_false_r.
Qed.




(** The [finally] block after a successful [try] block whose record, if
    any, is written without error. *)
Lemma finish_item_success i r st :
  item_processed_successfully r = true →
  (format args = FormatJson
   ∨ ∀ rec, output_record r = Some rec → csv_writerow_ok i rec = true) →
  finish_item_ i r st
  = mkLoop (output_writer st ++ option_list (output_record r))
           (processed_items st + 1)
           (matched_items st + (if matched r then 1 else 0))
           (items_with_errors st)
           0
           (processing_halted_by_breaker st).
Proof.
  intros Hr Hw. unfold finish_item. rewrite Hr.
  cbn [consecutive_item_failures].
  assert (Hnt : breaker_tripped args 0 = false).
  { unfold breaker_tripped.
    destruct (0 <? max_consecutive_line_failures args)%Z eqn:Hk; [|done].
    apply Z.ltb_lt in Hk. simpl. apply Z.leb_gt. lia. }
  rewrite Hnt. destruct (output_record r) as [rec|] eqn:Hrec; simpl.
  - destruct Hw as [-> | Hw]; [done|].
    destruct (format args); [done|]. by rewrite (Hw rec eq_refl).
  - by rewrite app_nil_r.
Qed.

(** A row that cannot be written: the item was counted as a success just
    before, so the error restarts the consecutive-failure counter at 1. *)
Lemma finish_item_write_error i r rec st :
  item_processed_successfully r = true →
  output_record r = Some rec →
  format args = FormatCsv → csv_writerow_ok i rec = false →
  finish_item_ i r st
  = mkLoop (output_writer st)
           (processed_items st + 1)
           (matched_items st + (if matched r then 1 else 0))
           (items_with_errors st + 1)
           1
           (processing_halted_by_breaker st || breaker_tripped args 1).
Proof.
  intros Hr Hrec Hfmt Hw. unfold finish_item.
  rewrite Hr, Hrec, Hfmt, Hw. cbn [consecutive_item_failures].
  assert (Hnt : breaker_tripped args 0 = false).
  { unfold breaker_tripped.
    destruct (0 <? max_consecutive_line_failures args)%Z eqn:Hk; [|done].
    apply Z.ltb_lt in Hk. simpl. apply Z.leb_gt. lia. }
  rewrite Hnt. change (0 + 1)%Z with 1%Z.
  destruct (breaker_tripped args 1); simpl.
  - by rewrite orb_true_r.
  - by rewrite orb_false_r.
Qed.


(** *** What reaches the output file *)

Lemma finish_item_output_prefix i r st :
  output_writer st `prefix_of` output_writer (finish_item_ i r st).
Proof.
  unfold finish_item.
  repeat (match goal with
          | |- context [match ?x with _ => _ end] => destruct x
          | |- context [if ?x then _ else _] => destruct x
          end; simpl; try done); by apply prefix_app_r.
Qed.

Lemma item_loop_output_prefix i items st :
  output_writer st `prefix_of` output_writer (item_loop_ i items st).
Proof.
  revert i st. induction items as [|item items IH]; intros i st; simpl.
  - done.
  - destruct item; try apply IH.
    destruct (processing_halted_by_breaker _).
    + apply finish_item_output_prefix.
    + etrans; [apply finish_item_output_prefix|apply IH].
Qed.

(** C3, as the code has it. In the CSV format the rows written while a
    prefix of the items was processed are still in the file at the end,
    whether or not the breaker trips. In the JSON format the records are
    only collected in memory: when the breaker trips the dump is skipped
    and the output file is left without any record. *)
Theorem breaker_partial_output :
  (format args = FormatCsv →
   ∀ pre rest,
     ∃ rows, file (process_match_items_ (pre ++ rest)) = CsvFile rows
             ∧ output_writer (item_loop_ 0 pre loop_init) `prefix_of` rows)
  ∧ (format args = FormatJson →
     ∀ items,
       processing_halted_by_breaker (final (process_match_items_ items))
       = true →
       file (process_match_items_ items) = JsonNotWritten).
Proof.
  split.
  - intros Hfmt pre rest. unfold process_match_items. rewrite Hfmt. simpl.
    eexists. split; [reflexivity|].
    rewrite item_loop_app by done. cbv zeta.
    destruct (processing_halted_by_breaker (item_loop_ 0 pre loop_init));
      [done|apply item_loop_output_prefix].
  - intros Hfmt items. unfold process_match_items. rewrite Hfmt.
    destruct (processing_halted_by_breaker (item_loop_ 0 items loop_init));
      [done|].
    by destruct (json_dump_ok _).
Qed.

(** *** Input errors *)


(** *** The confidence field *)






(** A DOI that [extract_doi_from_url] returns is never empty. *)
Lemma extract_doi_from_url_nonempty url doi :
  extract_doi_from_url urlparse url = Some doi → doi ≠ "".
Proof.
  unfold extract_doi_from_url. intros H Hempty. subst doi.
  repeat (match type of H with
          | context [match ?x with _ => _ end] => destruct x eqn:?
          end; simpl in H; try done);
    simplify_eq; match goal with
                 | Hs : PyStr.strip _ = "" , Hn : PyStr.nonempty _ = true
                   |- _ => by rewrite Hs in Hn
                 end.
Qed.


Lemma finish_item_output_elem i r st rec :
  rec ∈ output_writer (finish_item_ i r st) →
  rec ∈ output_writer st ∨ output_record r = Some rec.
Proof.
  unfold finish_item.
  repeat (match goal with
          | |- context [match ?x with _ => _ end] => destruct x
          end; simpl; try by left).
  all: rewrite elem_of_app, list_elem_of_singleton; intros [?| ->]; auto.
Qed.

(** Every record the loop hands to the writer is the record of one of the
    items. *)
Lemma item_loop_output_elem i items st rec :
  rec ∈ output_writer (item_loop_ i items st) →
  rec ∈ output_writer st
  ∨ ∃ j d, output_record (process_item_ j d) = Some rec.
Proof.
  revert i st. induction items as [|item items IH]; intros i st; simpl.
  - by left.
  - destruct item; try apply IH.
    assert (Hstep : rec ∈ output_writer (finish_item_ i (process_item_ i d) st)
                    → rec ∈ output_writer st
                      ∨ ∃ j d, output_record (process_item_ j d) = Some rec).
    { intros [?|?]%finish_item_output_elem; [by left|right; eauto]. }
    destruct (processing_halted_by_breaker _); [done|].
    intros [?|?]%IH; auto.
Qed.



(** ** More on the item loop *)

Abbreviation records_of_items_ :=
  (records_of_items urlparse json_loads py_str_other strategy_match).
Abbreviation all_succeed_ :=
  (all_succeed urlparse json_loads py_str_other strategy_match).
Abbreviation loop_invariant_holds_ := (loop_invariant_holds args).
Abbreviation main_after_load_ :=
  (main_after_load urlparse json_loads py_str_other strategy_match
                   csv_writerow_ok json_dump_ok args).

(** *** Accounting in the item loop *)

(** A successful [try] block always builds a record. *)
Lemma process_item_ok_record i d :
  item_processed_successfully (process_item_ i d) = true →
  ∃ rec, output_record (process_item_ i d) = Some rec.
Proof.
  unfold process_item, match_and_record.
  repeat (match goal with
          | |- context [match ?x with _ => _ end] => destruct x
          end; simpl; try done); eauto.
Qed.

Lemma breaker_tripped_spec c :
  breaker_tripped args c = true
  ↔ (0 < max_consecutive_line_failures args)%Z
    ∧ (max_consecutive_line_failures args <= c)%Z.
Proof.
  unfold breaker_tripped. rewrite andb_true_iff, Z.ltb_lt, Z.leb_le. done.
Qed.

Lemma finish_item_invariant i d st :
  processing_halted_by_breaker st = false →
  loop_invariant_holds_ st →
  loop_invariant_holds_ (finish_item_ i (process_item_ i d) st)
  ∧ processed_items (finish_item_ i (process_item_ i d) st)
    = (processed_items st + 1)%Z
  ∧ (items_with_errors st
     <= items_with_errors (finish_item_ i (process_item_ i d) st))%Z.
Proof.
  intros Hst (HA & HB1 & HB2 & HC1 & HC2 & HD & _).
  specialize (HD Hst).
  destruct (item_processed_successfully (process_item_ i d)) eqn:Hok.
  - destruct (process_item_ok_record i d Hok) as [rec Hrec].
    destruct (format args) eqn:Hfmt;
      [|destruct (csv_writerow_ok i rec) eqn:Hw].
    + rewrite (finish_item_success i _ st Hok)
        by (by left).
      rewrite Hrec. unfold loop_invariant_holds. simpl.
      rewrite length_app, Hst. simpl.
      destruct (matched (process_item_ i d)); repeat split; try done; lia.
    + rewrite (finish_item_success i _ st Hok).
      2:{ right. intros rec' Hrec'. rewrite Hrec in Hrec'.
          by injection Hrec' as <-. }
      rewrite Hrec. unfold loop_invariant_holds. simpl.
      rewrite length_app, Hst. simpl.
      destruct (matched (process_item_ i d)); repeat split; try done; lia.
    + rewrite (finish_item_write_error i _ rec st Hok Hrec
                 Hfmt Hw).
      unfold loop_invariant_holds. simpl. rewrite Hst. simpl.
      pose proof (breaker_tripped_spec 1) as Hspec.
      destruct (breaker_tripped args 1);
        destruct (matched (process_item_ i d)); repeat split; try done;
        try lia.
      all: try (destruct (proj1 Hspec eq_refl); lia).
      all: try (destruct (Z.le_gt_cases (max_consecutive_line_failures args) 0);
                [by left|right];
                destruct (Z.le_gt_cases (max_consecutive_line_failures args) 1);
                [|lia]; exfalso;
                assert (false = true) by (apply Hspec; lia); done).
  - rewrite (finish_item_failure i _ st Hok).
    rewrite (process_item_failed i d Hok).
    unfold loop_invariant_holds. simpl. rewrite Hst. simpl.
    pose proof (breaker_tripped_spec (consecutive_item_failures st + 1))
      as Hspec.
    destruct (breaker_tripped args (consecutive_item_failures st + 1));
      repeat split; try done; try lia.
    all: try (destruct (proj1 Hspec eq_refl); lia).
    all: try (destruct (Z.le_gt_cases (max_consecutive_line_failures args) 0);
              [by left|right];
              destruct (Z.le_gt_cases (max_consecutive_line_failures args)
                          (consecutive_item_failures st + 1));
              [|lia]; exfalso;
              assert (false = true) by (apply Hspec; lia); done).
Qed.

Lemma dict_item_count_cons item items :
  dict_item_count (item :: items)
  = ((if is_dict item then 1 else 0) + dict_item_count items)%Z.
Proof.
  unfold dict_item_count. rewrite filter_cons.
  destruct (is_dict item); simpl; lia.
Qed.

Lemma dict_item_count_nonneg items : (0 <= dict_item_count items)%Z.
Proof. unfold dict_item_count. lia. Qed.

Lemma item_loop_invariant i items st :
  processing_halted_by_breaker st = false →
  loop_invariant_holds_ st →
  loop_invariant_holds_ (item_loop_ i items st)
  ∧ (processed_items (item_loop_ i items st)
     <= processed_items st + dict_item_count items)%Z
  ∧ (processing_halted_by_breaker (item_loop_ i items st) = false →
     processed_items (item_loop_ i items st)
     = (processed_items st + dict_item_count items)%Z)
  ∧ (items_with_errors st <= items_with_errors (item_loop_ i items st))%Z.
Proof.
  revert i st. induction items as [|item items IH]; intros i st Hst Hinv.
  - cbn [item_loop]. unfold dict_item_count. simpl.
    split; [done|]. split; [lia|]. split; [intros _; lia|lia].
  - rewrite dict_item_count_cons. cbn [item_loop].
    pose proof (dict_item_count_nonneg items) as Hcount.
    destruct item as [| | | | | |d]; cbn [is_dict];
      try (destruct (IH (S i) st Hst Hinv) as (? & ? & Heq & ?);
           split; [done|]; split; [lia|]; split; [|lia];
           intros Hnh; rewrite (Heq Hnh); lia).
    destruct (finish_item_invariant i d st Hst Hinv) as (Hinv1 & Hp1 & He1).
    destruct (processing_halted_by_breaker
                (finish_item_ i (process_item_ i d) st)) eqn:Hh.
    + split; [done|]. split; [lia|]. split; [intros Hnh; congruence|lia].
    + destruct (IH (S i) _ Hh Hinv1) as (? & ? & Heq & ?).
      split; [done|]. split; [lia|]. split; [|lia].
      intros Hnh. rewrite (Heq Hnh). lia.
Qed.

Lemma loop_init_invariant : loop_invariant_holds_ loop_init.
Proof.
  unfold loop_invariant_holds. simpl. repeat split; try done.
  destruct (Z.le_gt_cases (max_consecutive_line_failures args) 0);
    [by left|right; lia].
Qed.

(** X12. The counters [process_match_items] ends with. Every processed item
    was either written or counted as an error (a failed final JSON dump
    counts one more error); the consecutive failures are among the errors;
    the matched items are among the processed ones; no more items are
    processed than there are objects in the list, and all of them unless
    the breaker halted the loop. *)
Theorem run_accounting (items : list pyval) :
  let r := process_match_items_ items in
  (processed_items (final r)
   + match file r with JsonDumpFailed => 1 | _ => 0 end
   = Z.of_nat (length (output_writer (final r)))
     + items_with_errors (final r))%Z
  ∧ (0 <= consecutive_item_failures (final r))%Z
  ∧ (consecutive_item_failures (final r) <= items_with_errors (final r))%Z
  ∧ (0 <= matched_items (final r))%Z
  ∧ (matched_items (final r) <= processed_items (final r))%Z
  ∧ (processed_items (final r) <= dict_item_count items)%Z
  ∧ (processing_halted_by_breaker (final r) = false →
     processed_items (final r) = dict_item_count items).
Proof.
  destruct (item_loop_invariant 0 items loop_init eq_refl loop_init_invariant)
    as ((HA & HB1 & HB2 & HC1 & HC2 & _) & Hle & Heq & _).
  cbv zeta. unfold process_match_items.
  set (st := item_loop_ 0 items loop_init) in *. simpl in Hle, Heq.
  destruct (format args); [destruct (processing_halted_by_breaker st) eqn:Hh;
                           [|destruct (json_dump_ok (output_writer st))]|];
    simpl; repeat split; try done; try lia.
  all: intros _; apply Heq; done.
Qed.

(** X13. The breaker and the counter. The loop ends halted exactly when the
    threshold is positive and the consecutive-failure counter equals it:
    the counter never passes a positive threshold. With a threshold of 0 or
    less the loop never halts and processes every object of the list. A
    halted run returns [False]. *)
Theorem breaker_and_counter (items : list pyval) :
  let r := process_match_items_ items in
  (processing_halted_by_breaker (final r) = true
   ↔ (0 < max_consecutive_line_failures args)%Z
     ∧ consecutive_item_failures (final r)
       = max_consecutive_line_failures args)
  ∧ ((0 < max_consecutive_line_failures args)%Z →
     (consecutive_item_failures (final r)
      <= max_consecutive_line_failures args)%Z)
  ∧ ((max_consecutive_line_failures args <= 0)%Z →
     processing_halted_by_breaker (final r) = false
     ∧ processed_items (final r) = dict_item_count items)
  ∧ (processing_halted_by_breaker (final r) = true → success r = false).
Proof.
  destruct (item_loop_invariant 0 items loop_init eq_refl loop_init_invariant)
    as ((_ & _ & _ & _ & _ & HD & HE) & _ & Heq & _).
  cbv zeta.
  assert (Hfinal :
    processing_halted_by_breaker (final (process_match_items_ items))
    = processing_halted_by_breaker (item_loop_ 0 items loop_init)
    ∧ consecutive_item_failures (final (process_match_items_ items))
      = consecutive_item_failures (item_loop_ 0 items loop_init)
    ∧ processed_items (final (process_match_items_ items))
      = processed_items (item_loop_ 0 items loop_init)
    ∧ (processing_halted_by_breaker (item_loop_ 0 items loop_init) = true →
       success (process_match_items_ items) = false)).
  { unfold process_match_items.
    set (st := item_loop_ 0 items loop_init).
    destruct (format args);
      [destruct (processing_halted_by_breaker st) eqn:Hh;
       [|destruct (json_dump_ok _)]|]; simpl;
      (split; [done|]; split; [done|]; split; [done|]);
      intros Hh'; rewrite ?Hh'; try congruence; apply andb_false_r. }
  destruct Hfinal as (-> & -> & -> & Hsucc).
  set (st := item_loop_ 0 items loop_init) in *. simpl in Heq.
  destruct (processing_halted_by_breaker st) eqn:Hh.
  - destruct (HE eq_refl) as [Hpos Hc].
    split; [done|]. split; [lia|]. split; [lia|]. done.
  - destruct (HD eq_refl) as [Hoff|Hlt].
    + split; [split; [done|lia]|]. split; [lia|]. split; [|done].
      intros _. split; [done|]. by apply Heq.
    + split; [split; [done|lia]|]. split; [lia|]. split; [|done].
      intros _. split; [done|]. by apply Heq.
Qed.

(** *** A run that returns [True] *)

Lemma finish_item_errors_mono i r st :
  (items_with_errors st <= items_with_errors (finish_item_ i r st))%Z.
Proof.
  unfold finish_item, halt.
  repeat (match goal with
          | |- context [match ?x with _ => _ end] => destruct x
          end; simpl; try lia).
Qed.

Lemma item_loop_errors_mono i items st :
  (items_with_errors st <= items_with_errors (item_loop_ i items st))%Z.
Proof.
  revert i st. induction items as [|item items IH]; intros i st; simpl.
  - lia.
  - destruct item; try apply IH.
    pose proof (finish_item_errors_mono i (process_item_ i d) st).
    destruct (processing_halted_by_breaker _); [done|].
    etrans; [done|apply IH].
Qed.

(** An item that adds no error was processed and written. *)
Lemma finish_item_no_error i d st :
  items_with_errors (finish_item_ i (process_item_ i d) st)
  = items_with_errors st →
  ∃ rec, output_record (process_item_ i d) = Some rec
         ∧ item_processed_successfully (process_item_ i d) = true
         ∧ output_writer (finish_item_ i (process_item_ i d) st)
           = output_writer st ++ [rec]
         ∧ processing_halted_by_breaker
             (finish_item_ i (process_item_ i d) st)
           = processing_halted_by_breaker st.
Proof.
  destruct (item_processed_successfully (process_item_ i d)) eqn:Hok.
  - destruct (process_item_ok_record i d Hok) as [rec Hrec].
    destruct (format args) eqn:Hfmt;
      [|destruct (csv_writerow_ok i rec) eqn:Hw].
    + rewrite (finish_item_success i _ st Hok) by (by left).
      rewrite Hrec. simpl. intros _. by exists rec.
    + rewrite (finish_item_success i _ st Hok).
      2:{ right. intros rec' Hrec'. rewrite Hrec in Hrec'.
          by injection Hrec' as <-. }
      rewrite Hrec. simpl. intros _. by exists rec.
    + rewrite (finish_item_write_error i _ rec st Hok Hrec Hfmt Hw).
      simpl. lia.
  - rewrite (finish_item_failure i _ st Hok). simpl. lia.
Qed.

Lemma item_loop_no_error i items st :
  processing_halted_by_breaker st = false →
  items_with_errors (item_loop_ i items st) = items_with_errors st →
  output_writer (item_loop_ i items st)
  = output_writer st ++ records_of_items_ i items
  ∧ processing_halted_by_breaker (item_loop_ i items st) = false.
Proof.
  revert i st. induction items as [|item items IH]; intros i st Hst Herr.
  - simpl. by rewrite app_nil_r.
  - cbn [item_loop records_of_items] in *.
    destruct item as [| | | | | |d]; try by apply IH.
    pose proof (finish_item_errors_mono i (process_item_ i d) st) as H1.
    destruct (processing_halted_by_breaker
                (finish_item_ i (process_item_ i d) st)) eqn:Hh.
    + destruct (finish_item_no_error i d st Herr) as (rec & _ & _ & _ & Hh').
      congruence.
    + pose proof (item_loop_errors_mono (S i) items
                    (finish_item_ i (process_item_ i d) st)) as H2.
      assert (Hsame : items_with_errors
                        (finish_item_ i (process_item_ i d) st)
                      = items_with_errors st) by lia.
      destruct (finish_item_no_error i d st Hsame)
        as (rec & Hrec & _ & Hout & _).
      destruct (IH (S i) _ Hh) as [Hout' Hh']; [lia|].
      split; [|done]. rewrite Hout', Hout, Hrec. simpl.
      by rewrite <- app_assoc.
Qed.

(** What a [True] result says about the loop it ran. *)
Lemma success_loop_state (items : list pyval) :
  success (process_match_items_ items) = true →
  items_with_errors (item_loop_ 0 items loop_init) = 0%Z
  ∧ processing_halted_by_breaker (item_loop_ 0 items loop_init) = false
  ∧ file_records (file (process_match_items_ items))
    = output_writer (item_loop_ 0 items loop_init)
  ∧ final (process_match_items_ items) = item_loop_ 0 items loop_init.
Proof.
  pose proof (item_loop_errors_mono 0 items loop_init) as Hmono.
  unfold process_match_items. revert Hmono.
  generalize (item_loop_ 0 items loop_init). intros [out p m e c h] Hmono.
  simpl in Hmono. cbn [output_writer processed_items matched_items
                       items_with_errors consecutive_item_failures
                       processing_halted_by_breaker].
  destruct (format args); [destruct h; [|destruct (json_dump_ok out)]|];
    simpl; intros Hs;
    apply andb_true_iff in Hs as [H0%Z.eqb_eq Hnh]; try done; try lia.
  destruct h; done.
Qed.

(** X14. When [process_match_items] returns [True] the output file holds the
    records of all the objects of the list, one for each, in the order of
    the list, in either format; nothing was counted as an error and the
    breaker did not trip. *)
Theorem success_means_complete_output (items : list pyval) :
  let r := process_match_items_ items in
  success r = true →
  file_records (file r) = records_of_items_ 0 items
  ∧ Z.of_nat (length (file_records (file r))) = dict_item_count items
  ∧ processed_items (final r) = dict_item_count items
  ∧ items_with_errors (final r) = 0%Z
  ∧ processing_halted_by_breaker (final r) = false.
Proof.
  cbv zeta. intros Hs.
  destruct (success_loop_state items Hs) as (H0 & Hh & Hf & Hfin).
  destruct (item_loop_no_error 0 items loop_init eq_refl) as [Hout _];
    [by rewrite H0|].
  destruct (item_loop_invariant 0 items loop_init eq_refl loop_init_invariant)
    as ((HA & _) & _ & Hall & _).
  specialize (Hall Hh). simpl in Hall, Hout. rewrite H0 in HA.
  rewrite Hf, Hfin.
  split; [done|]. split; [lia|]. split; [lia|]. done.
Qed.

(** *** The two output formats *)

Lemma finish_item_formats (k : Z) i r st :
  (∀ rec, output_record r = Some rec → csv_writerow_ok i rec = true) →
  finish_item csv_writerow_ok (mkArgs FormatCsv k) i r st
  = finish_item csv_writerow_ok (mkArgs FormatJson k) i r st.
Proof.
  intros Hw. unfold finish_item, breaker_tripped. simpl.
  destruct ((0 <? k)%Z && _); [done|].
  destruct (item_processed_successfully r); [|done].
  destruct (output_record r) as [rec|]; [|done].
  by rewrite (Hw rec eq_refl).
Qed.

(** X15. The two formats are equivalent as long as no row write fails: with the
    same threshold the loop goes through the same states, and when it is
    not halted and the JSON dump succeeds both files hold the same records
    and the function returns the same value. *)
Theorem formats_agree (k : Z) (items : list pyval) :
  (∀ i rec, csv_writerow_ok i rec = true) →
  let csv := process_match_items urlparse json_loads py_str_other
               strategy_match csv_writerow_ok json_dump_ok
               (mkArgs FormatCsv k) items in
  let json := process_match_items urlparse json_loads py_str_other
                strategy_match csv_writerow_ok json_dump_ok
                (mkArgs FormatJson k) items in
  item_loop urlparse json_loads py_str_other strategy_match csv_writerow_ok
    (mkArgs FormatCsv k) 0 items loop_init
  = item_loop urlparse json_loads py_str_other strategy_match csv_writerow_ok
      (mkArgs FormatJson k) 0 items loop_init
  ∧ (processing_halted_by_breaker (final json) = false →
     json_dump_ok (output_writer (final json)) = true →
     file_records (file csv) = file_records (file json)
     ∧ success csv = success json).
Proof.
  intros Hw.
  assert (Hloop : ∀ i st,
    item_loop urlparse json_loads py_str_other strategy_match csv_writerow_ok
      (mkArgs FormatCsv k) i items st
    = item_loop urlparse json_loads py_str_other strategy_match
        csv_writerow_ok (mkArgs FormatJson k) i items st).
  { induction items as [|item items' IH]; intros i st; simpl; [done|].
    destruct item; try apply IH.
    rewrite finish_item_formats by (intros; apply Hw).
    destruct (processing_halted_by_breaker _); [done|apply IH]. }
  cbv zeta. split; [apply Hloop|].
  unfold process_match_items. rewrite Hloop. cbn [format].
  set (st := item_loop urlparse json_loads py_str_other strategy_match
               csv_writerow_ok (mkArgs FormatJson k) 0 items loop_init).
  destruct (processing_halted_by_breaker st) eqn:Hh; [done|].
  destruct (json_dump_ok (output_writer st)) eqn:Hd; simpl; [done|].
  intros _ Hd'. congruence.
Qed.

(** X16. Row write errors do not add up. In the CSV format, with a threshold
    other than 1, a run of items that are all processed successfully but
    whose rows all fail to be written never halts the loop: each item is
    first counted as a success, which resets the counter, so the counter
    stands at 1 after each of them while every one is counted as an error
    and nothing is written. *)
Theorem row_write_errors_do_not_add_up (i : nat) (items : list pyval)
    (st : loop_state) :
  format args = FormatCsv →
  max_consecutive_line_failures args ≠ 1%Z →
  (∀ j rec, csv_writerow_ok j rec = false) →
  processing_halted_by_breaker st = false →
  all_succeed_ i items → items ≠ [] →
  let st' := item_loop_ i items st in
  output_writer st' = output_writer st
  ∧ processed_items st' = (processed_items st + Z.of_nat (length items))%Z
  ∧ items_with_errors st'
    = (items_with_errors st + Z.of_nat (length items))%Z
  ∧ consecutive_item_failures st' = 1%Z
  ∧ processing_halted_by_breaker st' = false.
Proof.
  intros Hfmt Hk Hw.
  assert (Hnt : breaker_tripped args 1 = false).
  { destruct (breaker_tripped args 1) eqn:Ht; [|done].
    apply breaker_tripped_spec in Ht. lia. }
  revert i st. induction items as [|item items IH];
    intros i st Hst Hall Hne; [done|].
  destruct Hall as [(d & -> & Hok) Hall]. cbv zeta. cbn [item_loop].
  destruct (process_item_ok_record i d Hok) as [rec Hrec].
  rewrite (finish_item_write_error i _ rec st Hok Hrec Hfmt (Hw i rec)).
  rewrite Hst, Hnt. cbn [orb processing_halted_by_breaker].
  destruct items as [|item' items].
  - cbn [item_loop length]. simpl. repeat split; lia.
  - edestruct (IH (S i)) as (H1 & H2 & H3 & H4 & H5);
      [|exact Hall|done|rewrite H1, H2, H3, H4, H5]; [done|].
    cbn [output_writer processed_items items_with_errors length].
    repeat split; try done; lia.
Qed.

(** *** What the driver puts in a record *)

(** A DOI that [extract_doi_from_url] returns has no white space around
    it. *)
Lemma extract_doi_from_url_stripped url doi :
  extract_doi_from_url urlparse url = Some doi → PyStr.strip doi = doi.
Proof.
  unfold extract_doi_from_url. intros H.
  repeat (match type of H with
          | context [match ?x with _ => _ end] => destruct x eqn:?
          end; simpl in H; try done);
    simplify_eq; apply strip_idemp.
Qed.

Local Ltac red_in H := cbn [andb negb] in H; cbv beta iota zeta in H.

(** X17. Where a DOI returned by [extract_doi_from_url] comes from. The argument
    is a non-empty string and the DOI is non-empty with no white space
    around it. With the doi: scheme, in any case, the DOI is what follows
    the scheme, trimmed, and [urlparse] plays no part. Otherwise [urlparse]
    returned: for the host doi.org, in any case, the DOI is the path
    without its leading slashes, trimmed; for any other host it is the
    whole string, trimmed, and it starts with 10. *)
Theorem extract_doi_from_url_result (url : pyval) (doi : string) :
  extract_doi_from_url urlparse url = Some doi →
  doi ≠ "" ∧ PyStr.strip doi = doi
  ∧ ∃ s, url = PyStr s ∧ s ≠ ""
     ∧ if PyStr.startswith "doi:" (PyStr.lower s)
       then doi = PyStr.strip (PyStr.drop 4 s)
            ∧ ∀ urlparse', extract_doi_from_url urlparse' url = Some doi
       else ∃ netloc path,
              urlparse s = Some (netloc, path)
              ∧ if bool_decide (PyStr.lower netloc = "doi.org")
                then doi = PyStr.strip (PyStr.lstrip_slash path)
                else doi = PyStr.strip s
                     ∧ PyStr.startswith "10." doi = true.
Proof.
  intros H.
  split; [by eapply extract_doi_from_url_nonempty|].
  split; [by eapply extract_doi_from_url_stripped|].
  destruct url as [| | | |s| |]; try done. exists s.
  unfold extract_doi_from_url in H |- *.
  destruct (PyStr.nonempty s) eqn:Hs; rewrite ?Hs in H; red_in H; [|done].
  split; [done|]. split; [by apply nonempty_ne|].
  destruct (PyStr.startswith "doi:" (PyStr.lower s)) eqn:Hd;
    rewrite ?Hd in H.
  - rewrite strip_idemp in H.
    destruct (PyStr.nonempty (PyStr.strip (PyStr.drop 4 s))) eqn:Hne;
      rewrite ?Hne in H; red_in H; [|done].
    injection H as <-. split; [done|]. intros urlparse'.
    by rewrite strip_idemp, Hne.
  - destruct (urlparse s) as [[netloc path]|]; [|done].
    exists netloc, path. split; [done|].
    destruct (bool_decide (PyStr.lower netloc = "doi.org")) eqn:Hn;
      rewrite ?Hn in H.
    + apply bool_decide_eq_true in Hn.
      assert (Hnl : PyStr.nonempty netloc = true) by (by destruct netloc).
      rewrite Hnl in H. red_in H.
      destruct (PyStr.nonempty (PyStr.strip (PyStr.lstrip_slash path)));
        red_in H; [|done].
      by injection H as <-.
    + rewrite andb_false_r in H.
      destruct (PyStr.startswith "10." (PyStr.strip s)) eqn:H10;
        rewrite ?H10 in H; red_in H; [|done].
      rewrite strip_idemp in H.
      destruct (PyStr.nonempty (PyStr.strip s)); red_in H; [|done].
      by injection H as <-.
Qed.

(** The record built after the strategy call. *)
Lemma match_and_record_forms i s doi rec :
  output_record (match_and_record urlparse py_str_other strategy_match
                   i s doi) = Some rec →
  input_doi rec = (if PyStr.startswith "N/A" doi then "" else doi)
  ∧ PyStr.strip (matched_doi rec) = matched_doi rec.
Proof.
  unfold match_and_record.
  destruct (strategy_match i s) as [m|]; [|done].
  destruct m as [| | | | |l|]; try done;
    try (by intros [= <-]).
  destruct l as [|first ms]; [by intros [= <-]|].
  destruct first as [| | | | | |fm]; try (by intros [= <-]).
  destruct (truthy (py_get "id" fm)); [|by intros [= <-]].
  destruct (extract_doi_from_url urlparse (py_get "id" fm)) as [x|] eqn:Hx;
    [|by intros [= <-]].
  intros [= <-]. simpl. split; [done|].
  by eapply extract_doi_from_url_stripped.
Qed.

(** The record of one item. *)
Lemma process_item_record_forms i d rec :
  output_record (process_item_ i d) = Some rec →
  PyStr.startswith "N/A" (input_doi rec) = false
  ∧ PyStr.strip (input_doi rec) = input_doi rec
  ∧ PyStr.strip (matched_doi rec) = matched_doi rec
  ∧ (input_doi rec ≠ "" →
     ∃ s parsed,
       py_get "input" d = PyStr s
       ∧ json_loads s = Some (PyDict parsed)
       ∧ truthy (py_get "DOI" parsed) = true
       ∧ input_doi rec
         = strip_doi_prefixes (py_str py_str_other (py_get "DOI" parsed))).
Proof.
  unfold process_item.
  destruct (negb (truthy (py_get "input" d))); [done|].
  destruct (py_get "input" d) as [| | | |s| |]; try done.
  destruct (json_loads s) as [[| | | | | |parsed]|] eqn:Hload; try done.
  intros [Hin Hm]%match_and_record_forms. unfold input_doi_extracted in Hin.
  destruct (truthy (py_get "DOI" parsed)) eqn:Ht.
  - set (x := strip_doi_prefixes _) in *.
    destruct (PyStr.startswith "N/A" x) eqn:Hx; rewrite Hin.
    + repeat split; done.
    + split; [done|]. split; [apply strip_idemp|]. split; [done|].
      intros _. exists s, parsed. by rewrite Ht.
  - change (PyStr.startswith "N/A" "N/A_MISSING_DOI") with true in Hin.
    rewrite Hin. repeat split; done.
Qed.

(** X18. Every record handed to the writer is in the form the evaluation tool
    reads back unchanged, up to case: its [input_doi] never starts with
    N/A, and neither DOI has white space around it, so normalising them
    only lowers their case. An [input_doi] that is not empty is the DOI of
    an item's input record with the URL and doi: prefixes removed. *)
Theorem emitted_record_forms (items : list pyval) (rec : OutputRecord) :
  rec ∈ output_writer (final (process_match_items_ items)) →
  PyStr.startswith "N/A" (input_doi rec) = false
  ∧ normalize_key (input_doi rec) = PyStr.lower (input_doi rec)
  ∧ normalize_key (matched_doi rec) = PyStr.lower (matched_doi rec)
  ∧ (input_doi rec ≠ "" →
     ∃ s parsed,
       json_loads s = Some (PyDict parsed)
       ∧ truthy (py_get "DOI" parsed) = true
       ∧ input_doi rec
         = strip_doi_prefixes (py_str py_str_other (py_get "DOI" parsed))).
Proof.
  unfold process_match_items. intros Hin.
  assert (Hin' : rec ∈ output_writer (item_loop_ 0 items loop_init)).
  { revert Hin. destruct (format args); [|done].
    destruct (processing_halted_by_breaker _); [done|].
    by destruct (json_dump_ok _). }
  clear Hin.
  apply item_loop_output_elem in Hin' as [Hnil | (j & d & Hrec)].
  { by apply elem_of_nil in Hnil. }
  destruct (process_item_record_forms j d rec Hrec) as (HNA & Hi & Hm & Hsrc).
  unfold normalize_key. rewrite Hi, Hm. repeat split; try done.
  intros Hne. destruct (Hsrc Hne) as (s & parsed & _ & ? & ? & ?).
  by exists s, parsed.
Qed.

(** *** The exit status of [main] *)

(** X19. [main] exits with status 0 or 1. Without a run, status 0 means the
    input file is an object whose [items] is an empty list, and status 1
    that it is not an object or has no list under [items]. With a run, the
    status is 0 exactly when the run returned [True], and then the output
    file holds one record for each object of the list, in order, with no
    error counted; a list without any object gives status 0 and an empty
    output as long as an empty list can be dumped. *)
Theorem main_exit_status (input_data : pyval) :
  let out := main_after_load_ input_data in
  (out.1 = 0%Z ∨ out.1 = 1%Z)
  ∧ (out.2 = None →
     if decide (out.1 = 0%Z)
     then ∃ d, input_data = PyDict d
               ∧ Dict.get "items" d = Some (PyList [])
     else ∀ d items, input_data = PyDict d →
                     Dict.get "items" d ≠ Some (PyList items))
  ∧ (∀ r, out.2 = Some r →
       ∃ d items,
         input_data = PyDict d
         ∧ Dict.get "items" d = Some (PyList items) ∧ items ≠ []
         ∧ r = process_match_items_ items
         ∧ (out.1 = 0%Z ↔ success r = true)
         ∧ (out.1 = 0%Z →
            file_records (file r) = records_of_items_ 0 items
            ∧ items_with_errors (final r) = 0%Z)
         ∧ (dict_item_count items = 0%Z →
            format args = FormatCsv ∨ json_dump_ok [] = true →
            out.1 = 0%Z ∧ file_records (file r) = [])).
Proof.
  cbv zeta. unfold main_after_load.
  destruct input_data as [| | | | | |d];
    try (simpl; split; [by right|]; split; [intros _ ? ? Heq; discriminate|done]).
  destruct (Dict.get "items" d) as [v|] eqn:Hget;
    [|simpl; split; [by right|]; split;
      [intros _ d' items [= <-]; by rewrite Hget|done]].
  destruct v as [| | | | |items|];
    try (simpl; split; [by right|]; split;
         [intros _ d' items' [= <-]; by rewrite Hget|done]).
  destruct items as [|item items].
  { simpl. split; [by left|]. split; [|done]. intros _. by exists d. }
  set (l := item :: items).
  set (r := process_match_items_ l). cbn [fst snd].
  split; [destruct (success r); auto|]. split; [done|].
  intros r' [= <-]. exists d, l.
  split; [done|]. split; [done|]. split; [done|]. split; [done|].
  split; [destruct (success r); split; done|]. split.
  - intros Hc. assert (Hs : success r = true) by (by destruct (success r)).
    destruct (success_loop_state l Hs) as (H0 & _ & Hf & Hfin).
    destruct (item_loop_no_error 0 l loop_init eq_refl) as [Hout _];
      [by rewrite H0|].
    simpl in Hout. fold r in Hf, Hfin. by rewrite Hf, Hfin.
  - intros Hnone Hdump.
    assert (Hloop : ∀ i items st, dict_item_count items = 0%Z →
                                  item_loop_ i items st = st).
    { clear. intros i items. revert i.
      induction items as [|x items IH]; intros i st Hc; [done|].
      pose proof (dict_item_count_nonneg items).
      rewrite dict_item_count_cons in Hc.
      destruct x; simpl in *; try (apply IH; lia). lia. }
    subst r. unfold process_match_items. rewrite (Hloop 0%nat l _ Hnone).
    simpl. destruct (format args); [|done].
    destruct Hdump as [Hf | Hd]; [done|]. by rewrite Hd.
Qed.

End DriverProperties.

(** ** The claims on concrete runs *)

(** One run over all kinds of items, threshold 10, JSON format. *)
Lemma example_outputs :
  output_writer (final (example_run (mkArgs FormatJson 10)
                          [item_a; item_b; item_no_doi; PyInt 5;
                           item_no_input; item_bad_json]))
  = [mkOutputRecord "10.1/a" "10.1/x" "0.9000";
     mkOutputRecord "10.1/b" "" "";
     mkOutputRecord "" "10.1/x" "high"].
Proof. vm_compute. reflexivity. Qed.


(** C3, refuted as stated: in the JSON format, with threshold 1, a
    successful item followed by a failing one trips the breaker; the record
    of the successful item was produced but is not in the output file,
    which holds no record at all. *)
Lemma json_records_dropped_on_halt :
  let r := example_run (mkArgs FormatJson 1) [item_a; item_no_input] in
  processing_halted_by_breaker (final r) = true
  ∧ output_writer (final r) = [mkOutputRecord "10.1/a" "10.1/x" "0.9000"]
  ∧ file r = JsonNotWritten
  ∧ ¬ (∀ rec, rec ∈ output_writer (final r) → rec ∈ file_records (file r)).
Proof.
  vm_compute. repeat split.
  intros H. specialize (H (mkOutputRecord "10.1/a" "10.1/x" "0.9000")).
  eapply not_elem_of_nil, H. left.
Qed.

Lemma breaker_partial_output_witness :
  (∃ rows,
     file (example_run (mkArgs FormatCsv 1)
             ([item_a; item_b] ++ [item_no_input; item_a]))
     = CsvFile rows
     ∧ [mkOutputRecord "10.1/a" "10.1/x" "0.9000";
        mkOutputRecord "10.1/b" "" ""] `prefix_of` rows)
  ∧ file (example_run (mkArgs FormatJson 1) [item_a; item_no_input])
    = JsonNotWritten.
Proof.
  destruct (breaker_partial_output example_urlparse example_json_loads
              example_py_str_other example_strategy always_written
              always_dumped (mkArgs FormatCsv 1)) as [Hcsv _].
  destruct (breaker_partial_output example_urlparse example_json_loads
              example_py_str_other example_strategy always_written
              always_dumped (mkArgs FormatJson 1)) as [_ Hjson].
  split.
  - exact (Hcsv eq_refl [item_a; item_b] [item_no_input; item_a]).
  - exact (Hjson eq_refl [item_a; item_no_input] eq_refl).
Defined.






(** ** More concrete runs *)

Lemma success_means_complete_output_witness :
  let r := example_run (mkArgs FormatJson 10) [item_a; PyInt 5; item_b] in
  file_records (file r)
  = records_of_items example_urlparse example_json_loads
      example_py_str_other example_strategy 0 [item_a; PyInt 5; item_b]
  ∧ Z.of_nat (length (file_records (file r)))
    = dict_item_count [item_a; PyInt 5; item_b]
  ∧ processed_items (final r) = dict_item_count [item_a; PyInt 5; item_b]
  ∧ items_with_errors (final r) = 0%Z
  ∧ processing_halted_by_breaker (final r) = false.
Proof.
  apply (success_means_complete_output example_urlparse example_json_loads
           example_py_str_other example_strategy always_written
           always_dumped (mkArgs FormatJson 10) [item_a; PyInt 5; item_b]).
  vm_compute. reflexivity.
Defined.

Lemma formats_agree_witness :
  let csv := example_run (mkArgs FormatCsv 2)
               [item_a; item_no_input; item_b] in
  let json := example_run (mkArgs FormatJson 2)
                [item_a; item_no_input; item_b] in
  item_loop example_urlparse example_json_loads example_py_str_other
    example_strategy always_written (mkArgs FormatCsv 2) 0
    [item_a; item_no_input; item_b] loop_init
  = item_loop example_urlparse example_json_loads example_py_str_other
      example_strategy always_written (mkArgs FormatJson 2) 0
      [item_a; item_no_input; item_b] loop_init
  ∧ (processing_halted_by_breaker (final json) = false →
     always_dumped (output_writer (final json)) = true →
     file_records (file csv) = file_records (file json)
     ∧ success csv = success json).
Proof.
  apply (formats_agree example_urlparse example_json_loads
           example_py_str_other example_strategy always_written
           always_dumped 2 [item_a; item_no_input; item_b]).
  intros i rec. reflexivity.
Defined.

(** Two good items whose rows cannot be written, threshold 2: both are
    counted as errors, and the loop is not halted. *)
Lemma row_write_errors_do_not_add_up_witness :
  let st' := item_loop example_urlparse example_json_loads
               example_py_str_other example_strategy (λ _ _, false)
               (mkArgs FormatCsv 2) 0 [item_a; item_b] loop_init in
  output_writer st' = output_writer loop_init
  ∧ processed_items st'
    = (processed_items loop_init + Z.of_nat (length [item_a; item_b]))%Z
  ∧ items_with_errors st'
    = (items_with_errors loop_init + Z.of_nat (length [item_a; item_b]))%Z
  ∧ consecutive_item_failures st' = 1%Z
  ∧ processing_halted_by_breaker st' = false.
Proof.
  apply (row_write_errors_do_not_add_up example_urlparse example_json_loads
           example_py_str_other example_strategy (λ _ _, false)
           (mkArgs FormatCsv 2) 0 [item_a; item_b] loop_init).
  - reflexivity.
  - simpl. lia.
  - intros j rec. reflexivity.
  - reflexivity.
  - split; [eexists; split; reflexivity|].
    split; [eexists; split; reflexivity|]. exact I.
  - discriminate.
Defined.

Lemma extract_doi_from_url_result_witness :
  "10.1/x" ≠ "" ∧ PyStr.strip "10.1/x" = "10.1/x"
  ∧ ∃ s, PyStr "DOI: 10.1/x " = PyStr s ∧ s ≠ ""
     ∧ if PyStr.startswith "doi:" (PyStr.lower s)
       then "10.1/x" = PyStr.strip (PyStr.drop 4 s)
            ∧ ∀ urlparse',
                extract_doi_from_url urlparse' (PyStr "DOI: 10.1/x ")
                = Some "10.1/x"
       else ∃ netloc path,
              example_urlparse s = Some (netloc, path)
              ∧ if bool_decide (PyStr.lower netloc = "doi.org")
                then "10.1/x" = PyStr.strip (PyStr.lstrip_slash path)
                else "10.1/x" = PyStr.strip s
                     ∧ PyStr.startswith "10." "10.1/x" = true.
Proof.
  apply (extract_doi_from_url_result example_urlparse
           (PyStr "DOI: 10.1/x ") "10.1/x").
  vm_compute. reflexivity.
Defined.

Lemma emitted_record_forms_witness :
  PyStr.startswith "N/A"
    (input_doi (mkOutputRecord "10.1/a" "10.1/x" "0.9000")) = false
  ∧ normalize_key (input_doi (mkOutputRecord "10.1/a" "10.1/x" "0.9000"))
    = PyStr.lower (input_doi (mkOutputRecord "10.1/a" "10.1/x" "0.9000"))
  ∧ normalize_key (matched_doi (mkOutputRecord "10.1/a" "10.1/x" "0.9000"))
    = PyStr.lower (matched_doi (mkOutputRecord "10.1/a" "10.1/x" "0.9000"))
  ∧ (input_doi (mkOutputRecord "10.1/a" "10.1/x" "0.9000") ≠ "" →
     ∃ s parsed,
       example_json_loads s = Some (PyDict parsed)
       ∧ truthy (py_get "DOI" parsed) = true
       ∧ input_doi (mkOutputRecord "10.1/a" "10.1/x" "0.9000")
         = strip_doi_prefixes
             (py_str example_py_str_other (py_get "DOI" parsed))).
Proof.
  apply (emitted_record_forms example_urlparse example_json_loads
           example_py_str_other example_strategy always_written
           always_dumped (mkArgs FormatJson 10)
           [item_a; item_b; item_no_doi]
           (mkOutputRecord "10.1/a" "10.1/x" "0.9000")).
  vm_compute. left.
Defined.
